(** * video-call: face login and signalling relay of [app.py]

    A shallow embedding of the Flask application in [src/app.py]: the face
    store built by [load_faces], the [/login] and [/admin/delete] handlers,
    and the Socket.IO signalling handlers.  Third-party calls (OpenCV,
    face_recognition, base64, Flask-SocketIO) are not part of the
    repository; they enter the development as the variables of a section or
    as a model written from the specification, each at the place it is
    used. *)

From Stdlib Require Import Strings.Ascii Strings.String Strings.Byte QArith.
From stdpp Require Import base list strings gmap.

Local Open Scope string_scope.
Local Open Scope list_scope.

(** ** Python strings *)

Module PyStr.

(** [str.lower] on the ASCII letters. *)
Definition lower_ascii (c : ascii) : ascii :=
  let n := nat_of_ascii c in
  if (65 <=? n)%nat && (n <=? 90)%nat then ascii_of_nat (n + 32) else c.

Fixpoint lower (s : string) : string :=
  match s with
  | EmptyString => EmptyString
  | String c r => String (lower_ascii c) (lower r)
  end.

(** [s.endswith(suf)]: some suffix of [s] is [suf]. *)
Fixpoint endswith (s suf : string) : bool :=
  String.eqb s suf ||
  match s with
  | EmptyString => false
  | String _ r => endswith r suf
  end.

(** [s.rfind(c)] for a one-character [c]; [None] stands for [-1]. *)
Fixpoint rfind (c : ascii) (s : string) : option nat :=
  match s with
  | EmptyString => None
  | String a r =>
      match rfind c r with
      | Some i => Some (S i)
      | None => if Ascii.eqb a c then Some 0%nat else None
      end
  end.

(** Is there a character other than [c] in [s]? *)
Fixpoint has_other (c : ascii) (s : string) : bool :=
  match s with
  | EmptyString => false
  | String a r => negb (Ascii.eqb a c) || has_other c r
  end.

(** [os.path.splitext(p)[0]] (posixpath: separator [/], extension
    separator [.]).  The extension starts at the last dot, provided that
    dot comes after the last separator and some character between the two
    is not a dot; otherwise the whole of [p] is the root. *)
Definition splitext_root (p : string) : string :=
  match rfind "." p with
  | None => p
  | Some dotIndex =>
      let filenameIndex :=
        match rfind "/" p with None => 0%nat | Some sepIndex => S sepIndex end in
      if (filenameIndex <=? dotIndex)%nat
         && has_other "." (substring filenameIndex (dotIndex - filenameIndex) p)
      then substring 0 dotIndex p
      else p
  end.

(** [os.path.join(a, b)] for a relative [b]. *)
Definition path_join (a b : string) : string := a +:+ "/" +:+ b.

(** What follows the first comma of [s], if it has one. *)
Fixpoint after_comma (s : string) : option string :=
  match s with
  | EmptyString => None
  | String c r => if Ascii.eqb c "," then Some r else after_comma r
  end.

(** [s.split(",", 1)[-1]]: what follows the first comma, or all of [s]
    when it has none. *)
Definition after_first_comma (s : string) : string :=
  default s (after_comma s).

End PyStr.

(** ** The face store and the HTTP handlers *)

Module Faces.
Import PyStr.

(** A Python call either returns or raises; the exception is kept as the
    text that [print] would show for it. *)
Inductive outcome (A : Type) : Type :=
  | Return (a : A)
  | Raise (exn : string).
Arguments Return {A} a.
Arguments Raise {A} exn.

Definition bytes := list byte.

(** The faces directory as [os.listdir] walks it: file names (no directory
    part) with the bytes of each file, in listing order. *)
Abbreviation directory := (list (string * bytes)).

(** What [cv2.imwrite(path, frame)] did inside the [try] of [login]: it
    raised, or it returned (its boolean result is discarded by the handler)
    and left the faces directory as [dir']. *)
Inductive write_outcome : Type :=
  | WriteRaised (exn : string)
  | WriteReturned (dir' : directory).

(** The third-party functions [app.py] calls, at the interface the code
    relies on.
    - [b64decode]: [base64.b64decode], [None] when it raises (the handler
      catches every exception of that call);
    - [imdecode]: [cv2.imdecode(np.frombuffer(bytes, np.uint8),
      cv2.IMREAD_COLOR)]: it returns an image, or Python's [None] for
      bytes that are no image, or raises ([cv2.error], as it does on an
      empty buffer);
    - [face_encodings]: [face_recognition.face_encodings], one encoding per
      detected face;
    - [face_distance]: [face_recognition.face_distance] of a stored encoding
      and the submitted one; the float it yields is read as the rational it
      denotes;
    - [load_image_file]: [face_recognition.load_image_file] on a file of the
      faces directory;
    - [imwrite]: [cv2.imwrite] into the faces directory. *)
Class Vision : Type := {
  image : Type;
  encoding : Type;
  b64decode : string -> option bytes;
  imdecode : bytes -> outcome (option image);
  face_encodings : image -> list encoding;
  face_distance : encoding -> encoding -> Q;
  load_image_file : bytes -> outcome image;
  imwrite : string -> image -> directory -> write_outcome;
}.

Definition FACES_DIR : string := "faces".

(** The process state the handlers read and write: the two module globals,
    the faces directory on disk, the [user] key of the caller's session and
    the lines printed so far. *)
Record state `{Vision} : Type := mkState {
  KNOWN_FACES : list encoding;
  KNOWN_NAMES : list string;
  faces_dir : directory;
  session_user : option string;
  stdout : list string;
}.
Arguments mkState {_} _ _ _ _ _.

(** The JSON object a handler returns: [{"status": ..., "name": ...}],
    [name] absent on failure. *)
Record response : Type := mkResponse {
  status : string;
  name : option string;
}.

Definition fail : response := mkResponse "fail" None.

Section Handlers.
Context `{V : Vision}.

(** [filename.lower().endswith((".jpg", ".jpeg", ".png"))] *)
Definition is_image_name (filename : string) : bool :=
  let l := lower filename in
  endswith l ".jpg" || endswith l ".jpeg" || endswith l ".png".

(** One turn of the loop of [load_faces]; the accumulator is
    [(known_faces, known_names, printed lines)]. *)
Definition load_faces_step (acc : list encoding * list string * list string)
    (entry : string * bytes) : list encoding * list string * list string :=
  let '(known_faces, known_names, out) := acc in
  let '(filename, content) := entry in
  if is_image_name filename then
    let path := path_join FACES_DIR filename in
    match load_image_file content with
    | Raise e =>
        (known_faces, known_names,
         out ++ ["Failed to load face " +:+ path +:+ " " +:+ e])
    | Return img =>
        match face_encodings img with
        | enc0 :: _ =>
            (known_faces ++ [enc0], known_names ++ [splitext_root filename], out)
        | [] => (known_faces, known_names, out)
        end
    end
  else (known_faces, known_names, out).

Definition load_faces (dir : directory)
  : list encoding * list string * list string :=
  fold_left load_faces_step dir ([], [], []).

(** [face_recognition.compare_faces(known, unknown, tolerance)]:
    [list(face_distance(known, unknown) <= tolerance)]. *)
Definition compare_faces (known : list encoding) (unknown : encoding)
    (tolerance : Q) : list bool :=
  map (fun k => Qle_bool (face_distance k unknown) tolerance) known.

Definition tolerance : Q := 1 # 2.

(** [matches.index(True)], [None] when [True not in matches]. *)
Definition index_true (matches : list bool) : option nat :=
  fst <$> list_find (fun b => b = true) matches.

(** [f"user_{ts}.jpg"] *)
Definition enroll_filename (ts : string) : string := "user_" +:+ ts +:+ ".jpg".

(** The turn of the store on a reload: [KNOWN_FACES, KNOWN_NAMES =
    load_faces()], with what the load printed. *)
Definition reload (st : state) (dir : directory) : state :=
  let '(faces, names, out) := load_faces dir in
  mkState faces names dir (session_user st) (stdout st ++ out).

(** Is a stored encoding within the tolerance of the submitted one? *)
Definition within_tolerance (known unknown : encoding) : bool :=
  Qle_bool (face_distance known unknown) tolerance.

(** Lines 47 to 62 of [login]: from [request.json.get("image")] ([None]
    when the key is absent) to the decoded frame.  [Return None] stands for
    the early [return {"status": "fail"}] of lines 49, 56 and 62.  The call
    of [cv2.imdecode] on line 59 is inside no [try]: what it raises leaves
    the handler. *)
Definition read_frame (img : option string) : outcome (option image) :=
  match img with
  | None => Return None
  | Some data =>
      if String.eqb data "" then Return None
      else
        let b64 := after_first_comma data in
        match b64decode b64 with
        | None => Return None
        | Some img_bytes => imdecode img_bytes
        end
  end.

(** [POST /login].  [img] is [request.json.get("image")] and [ts] is what
    [datetime.datetime.now().strftime("%Y%m%d_%H%M%S")] yields if the call
    reaches it. *)
Definition login (st : state) (ts : string) (img : option string)
  : outcome (response * state) :=
  match read_frame img with
  | Raise exn => Raise exn
  | Return None => Return (fail, st)
  | Return (Some frame) =>
    match face_encodings frame with
    | [] => Return (fail, st)
    | unknown :: _ =>
      let matches :=
        match KNOWN_FACES st with
        | [] => []
        | _ :: _ => compare_faces (KNOWN_FACES st) unknown tolerance
        end in
      match index_true matches with
      | Some i =>
        match KNOWN_NAMES st !! i with
        | None => Raise "IndexError: list index out of range"
        | Some name =>
          Return (mkResponse "success" (Some name),
                  mkState (KNOWN_FACES st) (KNOWN_NAMES st) (faces_dir st)
                          (Some name) (stdout st))
        end
      | None =>
        let filename := enroll_filename ts in
        let path := path_join FACES_DIR filename in
        match imwrite path frame (faces_dir st) with
        | WriteRaised e =>
          Return (fail,
                  mkState (KNOWN_FACES st) (KNOWN_NAMES st) (faces_dir st)
                          (session_user st)
                          (stdout st ++ ["Error saving face: " +:+ e]))
        | WriteReturned dir' =>
          Return (mkResponse "new_face" (Some filename), reload st dir')
        end
      end
    end
  end.

(** What [GET /admin/delete/<username>] answers. *)
Inductive page : Type :=
  | AccessDenied
  | RedirectAdmin.

(** [os.remove(filepath)] for a file of the faces directory. *)
Definition remove_file (filename : string) (dir : directory) : directory :=
  filter (fun entry => entry.1 ≠ filename) dir.

(** [os.path.exists(filepath)] for a file of the faces directory. *)
Definition file_exists (filename : string) (dir : directory) : bool :=
  bool_decide (filename ∈ dir.*1).

(** [GET /admin/delete/<username>] *)
Definition admin_delete (st : state) (username : string) : page * state :=
  if bool_decide (session_user st = Some "admin") then
    let filename := username +:+ ".jpg" in
    let dir' :=
      if file_exists filename (faces_dir st)
      then remove_file filename (faces_dir st)
      else faces_dir st in
    (RedirectAdmin, reload st dir')
  else (AccessDenied, st).

(** *** Vocabulary of the statements below *)

(** Two results of [load_faces] put end to end. *)
Definition cat3 (x y : list encoding * list string * list string)
  : list encoding * list string * list string :=
  (x.1.1 ++ y.1.1, x.1.2 ++ y.1.2, x.2 ++ y.2).

(** The state is well formed when the two globals have one length, as after
    every load. *)
Definition paired (st : state) : Prop :=
  length (KNOWN_FACES st) = length (KNOWN_NAMES st).

(** The state a successful login leaves: only the session changes. *)
Definition signed_in (st : state) (name : string) : state :=
  mkState (KNOWN_FACES st) (KNOWN_NAMES st) (faces_dir st) (Some name)
          (stdout st).

(** The state a failed write leaves: only a line is printed. *)
Definition write_failed (st : state) (e : string) : state :=
  mkState (KNOWN_FACES st) (KNOWN_NAMES st) (faces_dir st) (session_user st)
          (stdout st ++ ["Error saving face: " +:+ e]).

End Handlers.
End Faces.

(** ** The signalling relay *)

Module Signaling.

(** A connection is known by its Socket.IO session id. *)
Abbreviation sid := string (only parsing).

Section Relay.
(** [value]: what a field of an event's JSON object may hold; [none] is
    Python's [None], which [dict.get] yields for an absent key. *)
Context {value : Type} `{Countable value} (none : value).

Local Abbreviation payload := (gmap string value).
Local Abbreviation registry := (gmap value (gset sid)).

(** [data.get(key)] *)
Definition get (key : string) (data : payload) : value :=
  default none (data !! key).

(** Modelled from the spec: the room registry, which Flask-SocketIO keeps
    and [app.py] only calls (spec 3 and 4.3).  A room is a set of
    connections, exists from its first join and is dropped once empty. *)
Definition members (reg : registry) (room : value) : gset sid :=
  default ∅ (reg !! room).

(** Modelled from the spec: [join(connection, roomId)], Flask-SocketIO's
    [join_room]: adds the connection to the room's member set, creating the
    room if absent (spec 4.3). *)
Definition join_room (conn : sid) (room : value) (reg : registry) : registry :=
  <[room := {[conn]} ∪ members reg room]> reg.

(** Modelled from the spec: [leave(connection, roomId)], Flask-SocketIO's
    [leave_room]: removes the connection; the room is collected once empty
    (spec 4.3). *)
Definition leave_room (conn : sid) (room : value) (reg : registry) : registry :=
  let rest := members reg room ∖ {[conn]} in
  if decide (rest = ∅) then delete room reg else <[room := rest]> reg.

(** Modelled from the spec: [membersExcluding(roomId, connection)], the
    fan-out target list of a relayed event (spec 4.3). *)
Definition membersExcluding (reg : registry) (room : value) (conn : sid)
  : list sid :=
  elements (members reg room ∖ {[conn]}).

(** The rooms a connection belongs to. *)
Definition rooms_of (conn : sid) (reg : registry) : list value :=
  (map_to_list (filter (fun kv => conn ∈ kv.2) reg)).*1.

(** Modelled from the spec: cleanup on disconnect, which [app.py] leaves to
    Flask-SocketIO (it registers no [disconnect] handler): the connection
    leaves every room it belongs to (spec 4.3). *)
Definition disconnect (conn : sid) (reg : registry) : registry :=
  foldr (leave_room conn) reg (rooms_of conn reg).

(** One event put on the wire for one connection. *)
Record delivery : Type := mkDelivery {
  recipient : sid;
  event : string;
  data : payload;
}.

(** Modelled from the spec: Flask-SocketIO's
    [emit(event, data, to=room, include_self=...)] called from the handler
    of connection [sender]: one delivery per member of the room, the sender
    left out when [include_self] is false (spec 4.4). *)
Definition emit (reg : registry) (sender : sid) (ev : string) (d : payload)
    (to : value) (include_self : bool) : list delivery :=
  (fun c => mkDelivery c ev d) <$>
    (if include_self then elements (members reg to)
     else membersExcluding reg to sender).

(** [@socketio.on("join")] *)
Definition on_join (sender : sid) (d : payload) (reg : registry)
  : registry * list delivery :=
  let room := get "room" d in
  let name := get "name" d in
  let reg' := join_room sender room reg in
  (reg', emit reg' sender "user-joined" {["name" := name]} room false).

(** [@socketio.on("leave")] *)
Definition on_leave (sender : sid) (d : payload) (reg : registry)
  : registry * list delivery :=
  let room := get "room" d in
  let name := get "name" d in
  let reg' := leave_room sender room reg in
  (reg', emit reg' sender "user-left" {["name" := name]} room true).

(** [@socketio.on("offer")] *)
Definition on_offer (sender : sid) (d : payload) (reg : registry)
  : registry * list delivery :=
  (reg, emit reg sender "offer" d (get "room" d) false).

(** [@socketio.on("answer")] *)
Definition on_answer (sender : sid) (d : payload) (reg : registry)
  : registry * list delivery :=
  (reg, emit reg sender "answer" d (get "room" d) false).

(** [@socketio.on("ice-candidate")] *)
Definition on_ice_candidate (sender : sid) (d : payload) (reg : registry)
  : registry * list delivery :=
  (reg, emit reg sender "ice-candidate" d (get "room" d) false).

(** The events the relay forwards or announces to the other members. *)
Inductive relayed : Type :=
  | Join
  | Offer
  | Answer
  | IceCandidate.

Definition relay (k : relayed) (sender : sid) (d : payload) (reg : registry)
  : registry * list delivery :=
  match k with
  | Join => on_join sender d reg
  | Offer => on_offer sender d reg
  | Answer => on_answer sender d reg
  | IceCandidate => on_ice_candidate sender d reg
  end.

End Relay.

Arguments mkDelivery {value} _ _ _.
Arguments recipient {value} _.
Arguments event {value} _.
Arguments data {value} _.

End Signaling.

(** ** The pages of the application *)

Module Pages.
Import PyStr Faces Signaling.

(** What a route answers. *)
Inductive view : Type :=
  | Text (body : string)
  | Redirect (endpoint : string)
  | CallHtml (user room : string)
  | AdminHtml (user : string) (users : list (string * string)).

Definition denied : view := Text "Access denied 🚫".

(** Modelled from the spec: [socketio.emit(event, data)] called from a
    route, with no addressee: the event is sent to all connections
    (spec 6); [connected] holds them. *)
Definition socketio_emit (connected : gset sid) (ev : string)
    (d : gmap string string) : list (@delivery string) :=
  (fun c => mkDelivery c ev d) <$> elements connected.

Section Routes.
Context `{V : Vision}.

(** [os.path.getctime(path)] of a file of the faces directory, as
    [datetime.fromtimestamp(...).strftime("%Y-%m-%d %H:%M:%S")] prints it. *)
Variable added_at : string -> string.

(** [GET /call]; [args] is [request.args]. *)
Definition call_room (st : state) (args : gmap string string) : view :=
  match session_user st with
  | None => Redirect "index"
  | Some user =>
      if String.eqb user "" then Redirect "index"
      else CallHtml user (default "lobby" (args !! "room"))
  end.

(** One turn of the loop of [admin]: a row [{"name": ..., "added": ...}]
    for a file with an image name. *)
Definition admin_step (users : list (string * string)) (f : string)
  : list (string * string) :=
  if is_image_name f then
    let path := path_join FACES_DIR f in
    users ++ [(splitext_root f, added_at path)]
  else users.

(** [GET /admin] *)
Definition admin (st : state) : view :=
  match session_user st with
  | None => denied
  | Some user =>
      if String.eqb user "" || negb (String.eqb user "admin") then denied
      else AdminHtml user (fold_left admin_step (faces_dir st).*1 [])
  end.

(** [GET /admin/logout_all] *)
Definition logout_all (st : state) (connected : gset sid)
  : view * list (@delivery string) :=
  if bool_decide (session_user st = Some "admin")
  then (Redirect "admin", socketio_emit connected "force-logout" ∅)
  else (denied, []).

(** [POST /admin/broadcast]; [form] is [request.form], and a key it lacks
    ends the request with Flask's 400 answer. *)
Definition admin_broadcast (st : state) (form : gmap string string)
    (connected : gset sid) : outcome (view * list (@delivery string)) :=
  if bool_decide (session_user st = Some "admin") then
    match form !! "message" with
    | None => Raise "400 Bad Request: KeyError: 'message'"
    | Some message =>
        Return (Redirect "admin",
                socketio_emit connected "broadcast" {[ "message" := message ]})
    end
  else Return (denied, []).

(** The store agrees with the disk: the two globals are what [load_faces]
    yields for the faces directory. *)
Definition synced (st : state) : Prop :=
  KNOWN_FACES st = (load_faces (faces_dir st)).1.1
  /\ KNOWN_NAMES st = (load_faces (faces_dir st)).1.2.




(** The ways [login] returns, each with what led to it. *)
Inductive login_case (st : state) (ts : string) (img : option string)
    (r : response) (st' : state) : Prop :=
  | NoFrame :
      read_frame img = Return None -> r = fail -> st' = st ->
      login_case st ts img r st'
  | NoFace frame :
      read_frame img = Return (Some frame) -> face_encodings frame = [] ->
      r = fail -> st' = st ->
      login_case st ts img r st'
  | Known frame unknown rest i e n :
      read_frame img = Return (Some frame) -> face_encodings frame = unknown :: rest ->
      KNOWN_FACES st !! i = Some e -> KNOWN_NAMES st !! i = Some n ->
      within_tolerance e unknown = true ->
      (forall j e', KNOWN_FACES st !! j = Some e' -> j < i ->
                    within_tolerance e' unknown = false) ->
      r = mkResponse "success" (Some n) -> st' = signed_in st n ->
      login_case st ts img r st'
  | NotSaved frame unknown rest e :
      read_frame img = Return (Some frame) -> face_encodings frame = unknown :: rest ->
      (forall k, k ∈ KNOWN_FACES st -> within_tolerance k unknown = false) ->
      imwrite (path_join FACES_DIR (enroll_filename ts)) frame (faces_dir st)
        = WriteRaised e ->
      r = fail -> st' = write_failed st e ->
      login_case st ts img r st'
  | Enrolled frame unknown rest dir' :
      read_frame img = Return (Some frame) -> face_encodings frame = unknown :: rest ->
      (forall k, k ∈ KNOWN_FACES st -> within_tolerance k unknown = false) ->
      imwrite (path_join FACES_DIR (enroll_filename ts)) frame (faces_dir st)
        = WriteReturned dir' ->
      r = mkResponse "new_face" (Some (enroll_filename ts)) ->
      st' = reload st dir' ->
      login_case st ts img r st'.

End Routes.
End Pages.

(** ** A small world to run the handlers in

    Images are their bytes; every decimal digit among the bytes of an image
    is one face, and the digit is its encoding.  Two encodings lie a tenth
    apart per unit of difference, so digits at most five apart are within
    the tolerance. *)

Module Scenario.
Import PyStr Faces.

Definition digit (b : byte) : option Z :=
  let n := Z.of_N (Byte.to_N b) in
  if ((48 <=? n) && (n <=? 57))%Z then Some (n - 48)%Z else None.

(** Refuses text holding an exclamation mark. *)
Definition toy_b64decode (s : string) : option bytes :=
  if existsb (Byte.eqb "!"%byte) (list_byte_of_string s) then None
  else Some (list_byte_of_string s).

(** Raises on the empty buffer, as OpenCV does, and takes a buffer that
    starts with [x] for no image. *)
Definition toy_imdecode (b : bytes) : outcome (option bytes) :=
  match b with
  | [] => Raise "cv2.error: (-215:Assertion failed) !buf.empty() in function 'imdecode_'"
  | c :: _ => if Byte.eqb c "x"%byte then Return None else Return (Some b)
  end.

(** A file that starts with [X] cannot be read as an image. *)
Definition toy_load_image_file (b : bytes) : outcome bytes :=
  match b with
  | c :: _ =>
      if Byte.eqb c "X"%byte then Raise "cannot identify image file"
      else Return b
  | [] => Return b
  end.

(** Writes the frame under the last component of [path], after the files
    already there; raises once the directory holds three files. *)
Definition toy_imwrite (path : string) (frame : bytes) (dir : directory)
  : write_outcome :=
  if (3 <=? length dir)%nat then WriteRaised "disk full"
  else
    let filename :=
      match rfind "/" path with
      | None => path
      | Some i => substring (S i) (String.length path - S i) path
      end in
    WriteReturned (remove_file filename dir ++ [(filename, frame)]).

Definition toy : Vision := {|
  image := bytes;
  encoding := Z;
  b64decode := toy_b64decode;
  imdecode := toy_imdecode;
  face_encodings := omap digit;
  face_distance := fun a b => Z.abs (a - b) # 10;
  load_image_file := toy_load_image_file;
  imwrite := toy_imwrite;
|}.

Definition file (s : string) : bytes := list_byte_of_string s.

(** A store of two identities, [alice] at 1 and [bob] at 3, as [load_faces]
    builds it from their files. *)
Definition two_faces : directory :=
  [("alice.jpg", file "1"); ("bob.jpg", file "3")].

Definition started (dir : directory) (user : option string) : @state toy :=
  let '(faces, names, out) := @load_faces toy dir in
  @mkState toy faces names dir user out.

(** Three files fill the disk of the small world. *)
Definition full_disk : directory :=
  [("alice.jpg", file "1"); ("bob.jpg", file "3"); ("carol.jpg", file "2")].

(** The file an enrolment at noon writes for the face 9. *)
Definition noon : string := "20240101_120000".
Definition noon_file : string * bytes := ("user_20240101_120000.jpg", file "9").

(** The small world with a faces directory that cannot be written:
    [cv2.imwrite] raises nothing, returns [False] and leaves the directory
    as it was. *)
Definition read_only : Vision := {|
  image := bytes;
  encoding := Z;
  b64decode := toy_b64decode;
  imdecode := toy_imdecode;
  face_encodings := omap digit;
  face_distance := fun a b => Z.abs (a - b) # 10;
  load_image_file := toy_load_image_file;
  imwrite := fun _ _ dir => WriteReturned dir;
|}.

Definition started_read_only (dir : directory) (user : option string)
  : @state read_only :=
  let '(faces, names, out) := @load_faces read_only dir in
  @mkState read_only faces names dir user out.

(** Every file of the small world was made at noon. *)
Definition toy_added_at (path : string) : string := "2024-01-01 12:00:00".

(** A directory in which the administrator has a face. *)
Definition with_admin : directory :=
  [("admin.jpg", file "5"); ("notes.txt", file "5"); ("carol.PNG", file "9")].

(** Rooms and names are strings; [None] is Python's. *)
Definition room (s : string) : option string := Some s.

Definition lobby : gmap (option string) (gset string) :=
  {[ room "lobby" := {[ "a"; "b" ]} ]}.

End Scenario.

(** * Facts *)

(** ** Strings *)

Module StrFacts.
Import PyStr.

Lemma append_nil (b : string) : "" +:+ b = b.
Proof. reflexivity. Qed.

Lemma append_cons (x : ascii) (a b : string) :
  String x a +:+ b = String x (a +:+ b).
Proof. reflexivity. Qed.

Lemma append_assoc (a b c : string) : (a +:+ b) +:+ c = a +:+ (b +:+ c).
Proof.
  induction a as [|x a IH]; [reflexivity |].
  by rewrite !append_cons, IH.
Qed.

Lemma length_app (a b : string) :
  String.length (a +:+ b) = String.length a + String.length b.
Proof.
  induction a as [|x a IH]; [reflexivity |].
  rewrite append_cons. simpl. by rewrite IH.
Qed.

Lemma lower_app (a b : string) : lower (a +:+ b) = lower a +:+ lower b.
Proof.
  induction a as [|x a IH]; [reflexivity |].
  rewrite append_cons. simpl. by rewrite IH, append_cons.
Qed.

Lemma endswith_cons (c : ascii) (r suf : string) :
  endswith (String c r) suf = String.eqb (String c r) suf || endswith r suf.
Proof. reflexivity. Qed.

Lemma endswith_refl (s : string) : endswith s s = true.
Proof.
  destruct s as [|c r]; [reflexivity |].
  by rewrite endswith_cons, String.eqb_refl.
Qed.

Lemma endswith_app (a suf : string) : endswith (a +:+ suf) suf = true.
Proof.
  induction a as [|x a IH].
  - apply endswith_refl.
  - rewrite append_cons, endswith_cons, IH. apply orb_true_r.
Qed.

Lemma rfind_app_found (c : ascii) (a b : string) (i : nat) :
  rfind c b = Some i -> rfind c (a +:+ b) = Some (String.length a + i).
Proof.
  intros Hb. induction a as [|x a IH]; [exact Hb |].
  rewrite append_cons. simpl. by rewrite IH.
Qed.

Lemma rfind_app_absent (c : ascii) (a b : string) :
  rfind c b = None -> rfind c (a +:+ b) = rfind c a.
Proof.
  intros Hb. induction a as [|x a IH]; [exact Hb |].
  rewrite append_cons. simpl. by rewrite IH.
Qed.

Lemma substring_prefix (a b : string) :
  substring 0 (String.length a) (a +:+ b) = a.
Proof.
  induction a as [|x a IH].
  - by destruct b.
  - rewrite append_cons. simpl. by rewrite IH.
Qed.

(** The root of [base.jpg] is [base], for a [base] without a separator that
    is not made of dots alone. *)
Lemma splitext_root_jpg (base : string) :
  rfind "/" base = None -> has_other "." base = true ->
  splitext_root (base +:+ ".jpg") = base.
Proof.
  intros Hsep Hdot. unfold splitext_root.
  rewrite (rfind_app_found "." base ".jpg" 0) by reflexivity.
  rewrite (rfind_app_absent "/" base ".jpg") by reflexivity.
  rewrite Hsep, Nat.add_0_r, Nat.sub_0_r. simpl "<=?".
  by rewrite substring_prefix, Hdot.
Qed.

End StrFacts.

(** ** The face store *)

Module StoreFacts.
Import PyStr Faces.

Section Store.
Context `{V : Vision}.

Lemma cat3_assoc x y z : cat3 (cat3 x y) z = cat3 x (cat3 y z).
Proof. unfold cat3; simpl. by rewrite <- !(assoc_L (++)). Qed.

Lemma cat3_nil_l x : cat3 ([], [], []) x = x.
Proof. by destruct x as [[f n] o]. Qed.

Lemma cat3_nil_r x : cat3 x ([], [], []) = x.
Proof. destruct x as [[f n] o]. unfold cat3; simpl. by rewrite !app_nil_r. Qed.

(** A turn of the loop only appends to what was gathered before it. *)
Lemma load_faces_step_acc acc entry :
  load_faces_step acc entry = cat3 acc (load_faces_step ([], [], []) entry).
Proof.
  destruct acc as [[f n] o], entry as [filename content].
  unfold load_faces_step, cat3.
  destruct (is_image_name filename); simpl; [| by rewrite !app_nil_r].
  destruct (load_image_file content) as [img | e]; simpl;
    [| by rewrite !app_nil_r].
  destruct (face_encodings img); simpl; by rewrite ?app_nil_r.
Qed.

Lemma load_faces_fold dir acc :
  fold_left load_faces_step dir acc = cat3 acc (load_faces dir).
Proof.
  revert acc. induction dir as [| entry dir IH]; intros acc.
  - by rewrite cat3_nil_r.
  - change (fold_left load_faces_step (entry :: dir) acc)
      with (fold_left load_faces_step dir (load_faces_step acc entry)).
    change (load_faces (entry :: dir))
      with (fold_left load_faces_step dir (load_faces_step ([], [], []) entry)).
    rewrite !IH. by rewrite (load_faces_step_acc acc), cat3_assoc.
Qed.

(** The load of a listing is the load of its first part followed by the
    load of the rest: no file stops the loop. *)
Lemma load_faces_app d1 d2 :
  load_faces (d1 ++ d2) = cat3 (load_faces d1) (load_faces d2).
Proof. unfold load_faces at 1. by rewrite fold_left_app, load_faces_fold. Qed.

Lemma load_faces_cons entry dir :
  load_faces (entry :: dir) = cat3 (load_faces [entry]) (load_faces dir).
Proof. apply (load_faces_app [entry] dir). Qed.

(** [KNOWN_FACES] and [KNOWN_NAMES] grow together. *)
Lemma load_faces_lengths dir :
  length (load_faces dir).1.1 = length (load_faces dir).1.2.
Proof.
  induction dir as [| [filename content] dir IH]; [reflexivity |].
  rewrite load_faces_cons. unfold cat3; simpl. rewrite !length_app, IH.
  f_equal. unfold load_faces; simpl.
  destruct (is_image_name filename); [| reflexivity].
  destruct (load_image_file content) as [img | e]; [| reflexivity].
  by destruct (face_encodings img).
Qed.

(** The file [login] writes has a name [load_faces] takes for an image. *)
Lemma is_image_name_enroll ts : is_image_name (enroll_filename ts) = true.
Proof.
  unfold is_image_name, enroll_filename.
  rewrite <- StrFacts.append_assoc, StrFacts.lower_app.
  change (lower ".jpg") with ".jpg".
  by rewrite StrFacts.endswith_app.
Qed.

Lemma reload_paired st dir : paired (reload st dir).
Proof.
  unfold paired, reload. pose proof (load_faces_lengths dir) as Hlen.
  by destruct (load_faces dir) as [[f n] o].
Qed.

Lemma reload_store st dir :
  KNOWN_FACES (reload st dir) = (load_faces dir).1.1
  /\ KNOWN_NAMES (reload st dir) = (load_faces dir).1.2
  /\ faces_dir (reload st dir) = dir
  /\ session_user (reload st dir) = session_user st.
Proof. unfold reload. by destruct (load_faces dir) as [[f n] o]. Qed.

End Store.
End StoreFacts.

(** ** [POST /login] *)

Module LoginFacts.
Import PyStr Faces StoreFacts.

Section Login.
Context `{V : Vision}.

Lemma matches_map (faces : list encoding) (unknown : encoding) :
  match faces with
  | [] => []
  | _ :: _ => compare_faces faces unknown tolerance
  end = map (fun k => within_tolerance k unknown) faces.
Proof. by destruct faces. Qed.

(** [matches.index(True)] is the first stored encoding within tolerance. *)
Lemma index_true_first (faces : list encoding) (unknown e : encoding) (i : nat) :
  faces !! i = Some e ->
  within_tolerance e unknown = true ->
  (forall j e', faces !! j = Some e' -> j < i ->
                within_tolerance e' unknown = false) ->
  index_true (map (fun k => within_tolerance k unknown) faces) = Some i.
Proof.
  intros Hi Hin Hbefore. unfold index_true.
  assert (list_find (fun b : bool => b = true)
            (map (fun k => within_tolerance k unknown) faces) = Some (i, true))
    as ->; [| reflexivity].
  apply list_find_Some. split; [| split].
  - change (((fun k => within_tolerance k unknown) <$> faces) !! i = Some true).
    by rewrite list_lookup_fmap, Hi; simpl; rewrite Hin.
  - reflexivity.
  - intros j y Hj Hlt.
    change (((fun k => within_tolerance k unknown) <$> faces) !! j = Some y) in Hj.
    rewrite list_lookup_fmap in Hj.
    destruct (faces !! j) as [e' |] eqn:He'; simpl in Hj; [| discriminate].
    injection Hj as <-. rewrite (Hbefore j e' He' Hlt). discriminate.
Qed.

(** [True not in matches] when no stored encoding is within tolerance. *)
Lemma index_true_none (faces : list encoding) (unknown : encoding) :
  (forall e, e ∈ faces -> within_tolerance e unknown = false) ->
  index_true (map (fun k => within_tolerance k unknown) faces) = None.
Proof.
  intros Hnone. unfold index_true.
  assert (list_find (fun b : bool => b = true)
            (map (fun k => within_tolerance k unknown) faces) = None)
    as ->; [| reflexivity].
  apply list_find_None, Forall_forall. intros b Hb.
  change (b ∈ (fun k => within_tolerance k unknown) <$> faces) in Hb.
  apply list_elem_of_fmap in Hb as (e & -> & He).
  rewrite (Hnone e He). discriminate.
Qed.

(** The match branch of [login]. *)
Lemma login_match st ts img frame unknown rest i e n :
  read_frame img = Return (Some frame) ->
  face_encodings frame = unknown :: rest ->
  KNOWN_FACES st !! i = Some e ->
  within_tolerance e unknown = true ->
  (forall j e', KNOWN_FACES st !! j = Some e' -> j < i ->
                within_tolerance e' unknown = false) ->
  KNOWN_NAMES st !! i = Some n ->
  login st ts img = Return (mkResponse "success" (Some n), signed_in st n).
Proof.
  intros Hframe Hencs Hi Hin Hbefore Hn. unfold login.
  rewrite Hframe, Hencs. cbv zeta.
  by rewrite matches_map, (index_true_first _ _ e i Hi Hin Hbefore), Hn.
Qed.

(** The enrolment branch of [login], up to the write. *)
Lemma login_no_match st ts img frame unknown rest :
  read_frame img = Return (Some frame) ->
  face_encodings frame = unknown :: rest ->
  (forall e, e ∈ KNOWN_FACES st -> within_tolerance e unknown = false) ->
  login st ts img =
  match imwrite (path_join FACES_DIR (enroll_filename ts)) frame (faces_dir st) with
  | WriteRaised e => Return (fail, write_failed st e)
  | WriteReturned dir' =>
      Return (mkResponse "new_face" (Some (enroll_filename ts)), reload st dir')
  end.
Proof.
  intros Hframe Hencs Hnone. unfold login.
  rewrite Hframe, Hencs. cbv zeta.
  by rewrite matches_map, (index_true_none _ _ Hnone).
Qed.

(** What a [new_face] answer tells about the call. *)
Lemma login_new_face_inv st ts img fname st' :
  login st ts img = Return (mkResponse "new_face" (Some fname), st') ->
  exists frame dir',
    read_frame img = Return (Some frame)
    /\ imwrite (path_join FACES_DIR (enroll_filename ts)) frame (faces_dir st)
       = WriteReturned dir'
    /\ st' = reload st dir'
    /\ fname = enroll_filename ts.
Proof.
  unfold login.
  destruct (read_frame img) as [[frame |] | exn]; [| discriminate | discriminate].
  destruct (face_encodings frame) as [| unknown rest]; [discriminate |].
  cbv zeta. destruct (index_true _) as [i |].
  - destruct (KNOWN_NAMES st !! i); discriminate.
  - destruct (imwrite _ frame (faces_dir st)) as [e | dir'] eqn:Hw;
      [discriminate |].
    intros [= <- <-]. by exists frame, dir'.
Qed.

End Login.
End LoginFacts.

(** ** Claims on the matcher and the store *)

Module Matcher.
Import PyStr Faces StoreFacts LoginFacts.

Section General.
Context `{V : Vision}.

(** C1.  When the submitted face is within tolerance of two stored records
    (or more), [login] answers [success] with the name of the first of them
    in store order, whatever the distances are: the record at [i] wins over
    the one at [k] although nothing is asked of how near either is. *)
Theorem login_first_within_tolerance
    st ts img frame unknown rest (i k : nat) e_i e_k n :
  read_frame img = Return (Some frame) ->
  face_encodings frame = unknown :: rest ->
  i < k ->
  KNOWN_FACES st !! i = Some e_i -> within_tolerance e_i unknown = true ->
  KNOWN_FACES st !! k = Some e_k -> within_tolerance e_k unknown = true ->
  (forall j e', KNOWN_FACES st !! j = Some e' -> j < i ->
                within_tolerance e' unknown = false) ->
  KNOWN_NAMES st !! i = Some n ->
  login st ts img = Return (mkResponse "success" (Some n), signed_in st n).
Proof.
  intros Hframe Hencs _ Hi Hin _ _ Hbefore Hn.
  exact (login_match st ts img frame unknown rest i e_i n
           Hframe Hencs Hi Hin Hbefore Hn).
Qed.

(** C3.  When no face is detected in the submitted image, [login] answers
    [{"status": "fail"}] and the state is the one before the call: the
    store, the faces directory, the session and the output are untouched. *)
Theorem login_no_face st ts img frame :
  read_frame img = Return (Some frame) ->
  face_encodings frame = [] ->
  login st ts img = Return (fail, st) /\ status fail = "fail".
Proof.
  intros Hframe Hencs. split; [| reflexivity].
  unfold login. by rewrite Hframe, Hencs.
Qed.

(** The [except] branch of lines 79 to 81: when [cv2.imwrite] raises while
    the new face is saved, [login] answers [{"status": "fail"}];
    [KNOWN_FACES], [KNOWN_NAMES] and the faces directory are the ones
    before the call (no reload), and only the error line is printed.  A
    write that fails without raising does not come here. *)
Lemma login_write_raised st ts img frame unknown rest e :
  read_frame img = Return (Some frame) ->
  face_encodings frame = unknown :: rest ->
  (forall k, k ∈ KNOWN_FACES st -> within_tolerance k unknown = false) ->
  imwrite (path_join FACES_DIR (enroll_filename ts)) frame (faces_dir st)
    = WriteRaised e ->
  exists st',
    login st ts img = Return (fail, st')
    /\ KNOWN_FACES st' = KNOWN_FACES st
    /\ KNOWN_NAMES st' = KNOWN_NAMES st
    /\ faces_dir st' = faces_dir st
    /\ session_user st' = session_user st
    /\ stdout st' = stdout st ++ ["Error saving face: " +:+ e].
Proof.
  intros Hframe Hencs Hnone Hw. exists (write_failed st e).
  rewrite (login_no_match st ts img frame unknown rest Hframe Hencs Hnone), Hw.
  by repeat split.
Qed.

(** X4.  When [cv2.imwrite] returns, whatever it left on disk, the store is
    reloaded from the directory and the answer is [new_face]. *)
Lemma login_write_returned st ts img frame unknown rest dir' :
  read_frame img = Return (Some frame) ->
  face_encodings frame = unknown :: rest ->
  (forall k, k ∈ KNOWN_FACES st -> within_tolerance k unknown = false) ->
  imwrite (path_join FACES_DIR (enroll_filename ts)) frame (faces_dir st)
    = WriteReturned dir' ->
  login st ts img
  = Return (mkResponse "new_face" (Some (enroll_filename ts)), reload st dir').
Proof.
  intros Hframe Hencs Hnone Hw.
  by rewrite (login_no_match st ts img frame unknown rest Hframe Hencs Hnone), Hw.
Qed.

(** The early answers of lines 48 to 62: a missing or empty image field,
    base64 that does not decode and bytes for which [cv2.imdecode] returns
    [None] give [fail] and leave the state alone; when [cv2.imdecode]
    raises, so does [login]. *)
Lemma login_early_answers st ts :
  login st ts None = Return (fail, st)
  /\ login st ts (Some "") = Return (fail, st)
  /\ (forall data, b64decode (after_first_comma data) = None ->
        login st ts (Some data) = Return (fail, st))
  /\ (forall data b, b64decode (after_first_comma data) = Some b ->
        imdecode b = Return None ->
        login st ts (Some data) = Return (fail, st))
  /\ (forall data b exn, data <> "" ->
        b64decode (after_first_comma data) = Some b ->
        imdecode b = Raise exn ->
        login st ts (Some data) = Raise exn).
Proof.
  split; [reflexivity |]. split; [reflexivity |]. split; [| split].
  - intros data Hb. unfold login, read_frame.
    destruct (String.eqb data ""); [reflexivity |]. by rewrite Hb.
  - intros data b Hb Hd. unfold login, read_frame.
    destruct (String.eqb data ""); [reflexivity |]. by rewrite Hb, Hd.
  - intros data b exn Hne Hb Hd. unfold login, read_frame.
    destruct data; [done |]. simpl String.eqb. by rewrite Hb, Hd.
Qed.

(** X6.  The state [login] leaves is well formed again: the two globals
    keep one length. *)
Lemma login_paired st ts img r st' :
  paired st -> login st ts img = Return (r, st') -> paired st'.
Proof.
  intros Hpaired. unfold login.
  destruct (read_frame img) as [[frame |] | exn];
    [| by intros [= <- <-] | discriminate].
  destruct (face_encodings frame) as [| unknown rest]; [by intros [= <- <-] |].
  cbv zeta. destruct (index_true _) as [i |].
  - destruct (KNOWN_NAMES st !! i); [| discriminate]. by intros [= <- <-].
  - destruct (imwrite _ frame (faces_dir st)) as [e | dir'];
      intros [= <- <-]; [exact Hpaired | apply reload_paired].
Qed.

End General.
End Matcher.

(** ** Claims on enrolment, removal and the load *)

Module Store.
Import PyStr Faces StoreFacts LoginFacts.

Section General.
Context `{V : Vision}.

(** The load of one image file in which a face is found. *)
Lemma load_faces_one filename content img enc rest :
  is_image_name filename = true ->
  load_image_file content = Return img ->
  face_encodings img = enc :: rest ->
  load_faces [(filename, content)] = ([enc], [splitext_root filename], []).
Proof.
  intros Hname Himg Henc. unfold load_faces; simpl.
  by rewrite Hname, Himg, Henc.
Qed.

(** C2, amended.  After a [new_face] answer, whose name is the file name
    [user_<ts>.jpg], suppose the written file is in the directory and the
    reload found a face in it.  Then a later image whose encoding is within
    tolerance of that face, and of no record loaded from the files listed
    before it, is answered [success] with the file name without its
    extension, [os.path.splitext(filename)[0]]. *)
Theorem enrolled_then_matched
    st ts img fname st' pre content post img' enc rest'
    ts2 img2 frame2 unknown2 rest2 :
  login st ts img = Return (mkResponse "new_face" (Some fname), st') ->
  faces_dir st' = pre ++ (enroll_filename ts, content) :: post ->
  load_image_file content = Return img' ->
  face_encodings img' = enc :: rest' ->
  read_frame img2 = Return (Some frame2) ->
  face_encodings frame2 = unknown2 :: rest2 ->
  within_tolerance enc unknown2 = true ->
  (forall e, e ∈ (load_faces pre).1.1 -> within_tolerance e unknown2 = false) ->
  fname = enroll_filename ts
  /\ login st' ts2 img2
     = Return (mkResponse "success" (Some (splitext_root fname)),
               signed_in st' (splitext_root fname)).
Proof.
  intros Hlogin Hdir Himg Henc Hframe2 Hencs2 Hin Hpre.
  apply login_new_face_inv in Hlogin as (frame & dir' & _ & _ & -> & ->).
  split; [reflexivity |].
  destruct (reload_store st dir') as (Hf & Hn & Hd & _).
  rewrite Hd in Hdir. subst dir'.
  rewrite load_faces_app, load_faces_cons in Hf, Hn.
  rewrite (load_faces_one _ _ _ _ _ (is_image_name_enroll ts) Himg Henc)
    in Hf, Hn.
  simpl in Hf, Hn.
  apply (login_match _ ts2 img2 frame2 unknown2 rest2
           (length (load_faces pre).1.1) enc); try assumption.
  - rewrite Hf. by apply list_lookup_middle.
  - intros j e' Hj Hlt. rewrite Hf, lookup_app_l in Hj by exact Hlt.
    apply Hpre. by eapply list_elem_of_lookup_2.
  - rewrite Hn. apply list_lookup_middle. by rewrite load_faces_lengths.
Qed.

(** X5.  The identity under which an enrolled file is stored is [user_<ts>], and
    it is never the name [user_<ts>.jpg] the [new_face] answer carried. *)
Lemma enrolled_identity ts :
  rfind "/" ts = None ->
  splitext_root (enroll_filename ts) = "user_" +:+ ts
  /\ splitext_root (enroll_filename ts) <> enroll_filename ts.
Proof.
  intros Hsep.
  assert (splitext_root (enroll_filename ts) = "user_" +:+ ts) as Hroot.
  { unfold enroll_filename. rewrite <- StrFacts.append_assoc.
    apply StrFacts.splitext_root_jpg; [| reflexivity].
    by rewrite (StrFacts.rfind_app_absent "/" "user_" ts Hsep). }
  split; [exact Hroot |]. rewrite Hroot. intros Heq.
  apply (f_equal String.length) in Heq. unfold enroll_filename in Heq.
  rewrite !StrFacts.length_app in Heq. simpl in Heq. lia.
Qed.

(** C9, amended.  In the load of a listing, an image file that cannot be
    read is skipped and one line, [Failed to load face <path> <error>], is
    printed for it; an image file in which no face is found is skipped and
    nothing is printed for it.  In both cases the files before and after it
    are loaded as if it were not there. *)
Theorem load_faces_skips pre filename content post :
  is_image_name filename = true ->
  (forall e, load_image_file content = Raise e ->
     load_faces (pre ++ (filename, content) :: post)
     = cat3 (load_faces pre)
         (cat3 ([], [],
                ["Failed to load face " +:+ path_join FACES_DIR filename
                 +:+ " " +:+ e])
               (load_faces post)))
  /\ (forall img, load_image_file content = Return img ->
        face_encodings img = [] ->
        load_faces (pre ++ (filename, content) :: post)
        = cat3 (load_faces pre) (load_faces post)).
Proof.
  intros Hname. split.
  - intros e He. rewrite load_faces_app, load_faces_cons. do 2 f_equal.
    unfold load_faces; simpl. by rewrite Hname, He.
  - intros img Himg Hnone. rewrite load_faces_app, load_faces_cons.
    f_equal. rewrite <- (cat3_nil_l (load_faces post)) at 2. f_equal.
    unfold load_faces; simpl. by rewrite Hname, Himg, Hnone.
Qed.

(** A file whose name is not an image name takes no part in the load. *)
Lemma load_faces_other_file pre filename content post :
  is_image_name filename = false ->
  load_faces (pre ++ (filename, content) :: post)
  = cat3 (load_faces pre) (load_faces post).
Proof.
  intros Hname. rewrite load_faces_app, load_faces_cons.
  f_equal. rewrite <- (cat3_nil_l (load_faces post)) at 2. f_equal.
  unfold load_faces; simpl. by rewrite Hname.
Qed.

Lemma remove_file_absent filename (dir : directory) :
  filename ∉ dir.*1 -> remove_file filename dir = dir.
Proof.
  intros Habs. unfold remove_file.
  induction dir as [| [f c] dir IH]; [reflexivity |].
  rewrite filter_cons. simpl in *.
  apply not_elem_of_cons in Habs as [Hne Habs].
  rewrite decide_True by congruence. by rewrite IH.
Qed.

(** X3.  What [admin_delete] does for the administrator: the file
    [<username>.jpg] is gone from the faces directory, every other file is
    kept, and the store is the load of what is left.  When there is no such
    file the directory is as before, and the call redirects all the same. *)
Lemma admin_delete_jpg st username :
  session_user st = Some "admin" ->
  let filename := username +:+ ".jpg" in
  let st' := (admin_delete st username).2 in
  (admin_delete st username).1 = RedirectAdmin
  /\ faces_dir st' = remove_file filename (faces_dir st)
  /\ (filename ∉ (faces_dir st').*1)
  /\ (filename ∉ (faces_dir st).*1 -> faces_dir st' = faces_dir st)
  /\ KNOWN_FACES st' = (load_faces (faces_dir st')).1.1
  /\ KNOWN_NAMES st' = (load_faces (faces_dir st')).1.2.
Proof.
  intros Hadmin filename st'. subst st'. unfold admin_delete.
  rewrite bool_decide_eq_true_2 by exact Hadmin. fold filename. simpl.
  assert ((if file_exists filename (faces_dir st)
           then remove_file filename (faces_dir st) else faces_dir st)
          = remove_file filename (faces_dir st)) as ->.
  { unfold file_exists. case_bool_decide as Hex; [reflexivity |].
    by rewrite remove_file_absent. }
  destruct (reload_store st (remove_file filename (faces_dir st)))
    as (Hf & Hn & Hd & _).
  rewrite Hd. repeat split; try assumption.
  - unfold remove_file. intros Hin.
    apply list_elem_of_fmap in Hin as ([f c] & Heq & Hin).
    apply list_elem_of_filter in Hin as [Hne _]. simpl in *. congruence.
  - apply remove_file_absent.
Qed.

(** Without the administrator's session nothing is touched. *)
Lemma admin_delete_denied st username :
  session_user st <> Some "admin" ->
  admin_delete st username = (AccessDenied, st).
Proof.
  intros Hno. unfold admin_delete. by rewrite bool_decide_eq_false_2.
Qed.

End General.
End Store.

(** ** The claims at work in the small world *)

Module Cases.
Import PyStr Faces StoreFacts LoginFacts Scenario.

#[local] Existing Instance toy.

(** The face 3 is within tolerance of alice (at 1) and of bob (at 3), and
    nearer to bob; alice, loaded first, is the answer. *)
Lemma login_first_within_tolerance_witness :
  (face_distance 3%Z 3%Z < face_distance 1%Z 3%Z)%Q
  /\ login (started two_faces None) "20240101_120000"
       (Some "data:image/jpeg;base64,3")
     = Return (mkResponse "success" (Some "alice"),
               signed_in (started two_faces None) "alice").
Proof.
  split; [reflexivity |].
  apply (Matcher.login_first_within_tolerance
           (started two_faces None) "20240101_120000"
           (Some "data:image/jpeg;base64,3")
           (file "3") 3%Z [] 0 1 1%Z 3%Z "alice");
    try reflexivity; [lia | intros j e' _ Hlt; lia].
Defined.

(** An image without a digit holds no face. *)
Lemma login_no_face_witness :
  login (started two_faces None) "20240101_120000" (Some "data:,abc")
  = Return (fail, started two_faces None) /\ status fail = "fail".
Proof.
  apply (Matcher.login_no_face (started two_faces None) "20240101_120000"
           (Some "data:,abc") (file "abc")); reflexivity.
Defined.

Lemma login_write_raised_witness :
  exists st',
    login (started full_disk None) "20240101_120000" (Some "9")
    = Return (fail, st')
    /\ KNOWN_FACES st' = [1; 3; 2]%Z
    /\ KNOWN_NAMES st' = ["alice"; "bob"; "carol"]
    /\ faces_dir st' = full_disk
    /\ session_user st' = None
    /\ stdout st' = [] ++ ["Error saving face: " +:+ "disk full"].
Proof.
  apply (Matcher.login_write_raised (started full_disk None)
           "20240101_120000" (Some "9") (file "9") 9%Z [] "disk full");
    try reflexivity.
  intros k Hk. vm_compute in Hk.
  repeat (apply elem_of_cons in Hk as [-> | Hk]; [reflexivity |]).
  by apply elem_of_nil in Hk.
Defined.

(** C2 at work: bob and alice are too far from the face 9, which is
    enrolled after them and then recognised under [user_20240101_120000]. *)
Lemma enrolled_then_matched_witness :
  login (started (two_faces ++ [noon_file]) None) "20240101_120005" (Some "9")
  = Return (mkResponse "success" (Some "user_20240101_120000"),
            signed_in (started (two_faces ++ [noon_file]) None)
              "user_20240101_120000").
Proof.
  refine (proj2 (Store.enrolled_then_matched
                   (started two_faces None) noon (Some "9")
                   "user_20240101_120000.jpg"
                   (started (two_faces ++ [noon_file]) None)
                   two_faces (file "9") [] (file "9") 9%Z []
                   "20240101_120005" (Some "9") (file "9") 9%Z []
                   eq_refl eq_refl eq_refl eq_refl eq_refl eq_refl eq_refl _)).
  intros e He. vm_compute in He.
  repeat (apply elem_of_cons in He as [-> | He]; [reflexivity |]).
  by apply elem_of_nil in He.
Defined.

(** C2 as stated fails.  First, from an empty store the face 9 is enrolled
    with the name [user_20240101_120000.jpg], and the same image is then
    matched as [user_20240101_120000]: the two names differ.  Second, with
    alice (at 1) in the store the face 7 is enrolled, and the later face 4,
    within tolerance of 7, is matched as alice, who is listed first. *)
Lemma enrolled_name_not_matched_name :
  (login (started [] None) noon (Some "9")
   = Return (mkResponse "new_face" (Some "user_20240101_120000.jpg"),
             started [noon_file] None)
   /\ KNOWN_FACES (started [noon_file] None) = [9%Z]
   /\ within_tolerance 9%Z 9%Z = true
   /\ login (started [noon_file] None) "20240101_120005" (Some "9")
      = Return (mkResponse "success" (Some "user_20240101_120000"),
                signed_in (started [noon_file] None) "user_20240101_120000")
   /\ "user_20240101_120000" <> "user_20240101_120000.jpg")
  /\ (login (started [("alice.jpg", file "1")] None) noon (Some "7")
      = Return (mkResponse "new_face" (Some "user_20240101_120000.jpg"),
                started [("alice.jpg", file "1");
                         ("user_20240101_120000.jpg", file "7")] None)
      /\ within_tolerance 7%Z 4%Z = true
      /\ login (started [("alice.jpg", file "1");
                         ("user_20240101_120000.jpg", file "7")] None)
           "20240101_120005" (Some "4")
         = Return (mkResponse "success" (Some "alice"),
                   signed_in (started [("alice.jpg", file "1");
                              ("user_20240101_120000.jpg", file "7")] None)
                     "alice")).
Proof. repeat split; try reflexivity. discriminate. Qed.

(** C9 at work: the unreadable [bad.png] costs one printed line, the
    faceless [blank.jpg] none; alice and bob are loaded around them. *)
Lemma load_faces_skips_witness :
  load_faces [("alice.jpg", file "1"); ("bad.png", file "X1");
              ("bob.jpg", file "3")]
  = ([1%Z; 3%Z], ["alice"; "bob"],
     ["Failed to load face faces/bad.png cannot identify image file"])
  /\ load_faces [("alice.jpg", file "1"); ("blank.jpg", file "abc");
                 ("bob.jpg", file "3")]
     = ([1%Z; 3%Z], ["alice"; "bob"], []).
Proof.
  split.
  - exact (proj1 (Store.load_faces_skips [("alice.jpg", file "1")]
                    "bad.png" (file "X1") [("bob.jpg", file "3")] eq_refl)
             "cannot identify image file" eq_refl).
  - exact (proj2 (Store.load_faces_skips [("alice.jpg", file "1")]
                    "blank.jpg" (file "abc") [("bob.jpg", file "3")] eq_refl)
             (file "abc") eq_refl eq_refl).
Defined.

(** C9 as stated fails: [blank.jpg] is an image file that loads and shows
    no face; it is skipped and nothing at all is printed. *)
Lemma faceless_file_not_logged :
  is_image_name "blank.jpg" = true
  /\ load_image_file (file "abc") = Return (file "abc")
  /\ face_encodings (file "abc") = []
  /\ load_faces [("blank.jpg", file "abc")] = ([], [], []).
Proof. by repeat split. Qed.

(** C5 at the failing input.  The faces directory cannot be written and
    [cv2.imwrite] returns [False] without raising.  The unknown face 9 is
    answered [new_face], not [fail], and the store is reloaded, although
    no file of that name is in the directory. *)
Theorem login_write_failed_silently :
  login (started_read_only two_faces None) noon (Some "9")
  = Return (mkResponse "new_face" (Some "user_20240101_120000.jpg"),
            reload (started_read_only two_faces None) two_faces)
  /\ faces_dir (reload (started_read_only two_faces None) two_faces)
     = two_faces
  /\ "user_20240101_120000.jpg" ∉ two_faces.*1.
Proof.
  split; [reflexivity |]. split; [reflexivity |].
  intros Hin. vm_compute in Hin.
  repeat (apply elem_of_cons in Hin as [Hin | Hin]; [discriminate Hin |]).
  by apply elem_of_nil in Hin.
Qed.

(** C10 at the failing input.  The image field [","], like a data URL with
    nothing after its comma, is a string that is not empty and decodes to
    no bytes at all; [cv2.imdecode] raises on the empty buffer and so does
    [login], where the other undecodable inputs are answered [fail]. *)
Theorem login_empty_buffer_raises :
  b64decode (after_first_comma ",") = Some []
  /\ (exists exn,
        login (started two_faces None) noon (Some ",") = Raise exn)
  /\ (exists exn,
        login (started two_faces None) noon (Some "data:image/jpeg;base64,")
        = Raise exn)
  /\ login (started two_faces None) noon (Some "xyz")
     = Return (fail, started two_faces None).
Proof. repeat split; try reflexivity; by eexists. Qed.

(** C8 at the failing input.  The identity [bob] is backed by [bob.png].
    [admin_delete] looks for [bob.jpg] only: the file stays, and so does
    the identity after the reload. *)
Theorem admin_delete_keeps_png :
  KNOWN_NAMES (started [("bob.png", file "3")] (Some "admin")) = ["bob"]
  /\ admin_delete (started [("bob.png", file "3")] (Some "admin")) "bob"
     = (RedirectAdmin, started [("bob.png", file "3")] (Some "admin")).
Proof. by split. Qed.

End Cases.

(** ** The room registry and the relay *)

Module RelayFacts.
Import Signaling.

Section Registry.
Context {value : Type} `{Countable value} (none : value).

Local Abbreviation payload := (gmap string value).
Local Abbreviation registry := (gmap value (gset sid)).

Lemma members_join (conn : sid) (room room' : value) (reg : registry) :
  members (join_room conn room reg) room'
  = if decide (room = room') then {[conn]} ∪ members reg room
    else members reg room'.
Proof.
  unfold join_room, members at 1. rewrite lookup_insert.
  by destruct (decide (room = room')).
Qed.

Lemma members_leave (conn : sid) (room room' : value) (reg : registry) :
  members (leave_room conn room reg) room'
  = if decide (room = room') then members reg room ∖ {[conn]}
    else members reg room'.
Proof.
  unfold leave_room.
  destruct (decide (members reg room ∖ {[conn]} = ∅)) as [Hempty | Hrest];
    unfold members at 1.
  - rewrite lookup_delete. destruct (decide (room = room')); [| reflexivity].
    by rewrite Hempty.
  - rewrite lookup_insert. by destruct (decide (room = room')).
Qed.

(** Leaving a list of rooms empties the connection out of each of them and
    leaves the other rooms as they were. *)
Lemma members_leave_all (conn : sid) (rooms : list value) (room : value)
    (reg : registry) :
  members (foldr (leave_room conn) reg rooms) room
  = if decide (room ∈ rooms) then members reg room ∖ {[conn]}
    else members reg room.
Proof.
  induction rooms as [| r rooms IH]; cbn [foldr].
  - rewrite decide_False by apply not_elem_of_nil. reflexivity.
  - rewrite members_leave. destruct (decide (r = room)) as [-> | Hne].
    + rewrite decide_True by apply list_elem_of_here.
      rewrite IH. destruct (decide (room ∈ rooms)); [| reflexivity].
      apply set_eq. intros c. rewrite !elem_of_difference. tauto.
    + rewrite IH. destruct (decide (room ∈ rooms)) as [Hin | Hout].
      * rewrite decide_True by (by apply list_elem_of_further). reflexivity.
      * rewrite decide_False; [reflexivity |].
        intros [? | ?]%elem_of_cons; congruence.
Qed.

(** [rooms_of] lists every room the connection is a member of. *)
Lemma rooms_of_member (conn : sid) (room : value) (reg : registry) :
  conn ∈ members reg room -> room ∈ rooms_of conn reg.
Proof.
  unfold members, rooms_of. intros Hin.
  destruct (reg !! room) as [s |] eqn:Hs; simpl in Hin; [| set_solver].
  apply list_elem_of_fmap. exists (room, s). split; [reflexivity |].
  apply elem_of_map_to_list, map_lookup_filter_Some. by split.
Qed.

(** What [disconnect] leaves of a room: its members but the connection. *)
Lemma members_disconnect (conn : sid) (room : value) (reg : registry) :
  members (disconnect conn reg) room = members reg room ∖ {[conn]}.
Proof.
  unfold disconnect. rewrite members_leave_all.
  destruct (decide (room ∈ rooms_of conn reg)) as [Hin | Hout];
    [reflexivity |].
  symmetry. apply difference_disjoint_L, disjoint_singleton_r.
  intros Hmem. by apply Hout, rooms_of_member.
Qed.

Lemma emit_recipients (reg : registry) (sender : sid) (ev : string)
    (d : payload) (to : value) :
  recipient <$> emit reg sender ev d to false = membersExcluding reg to sender.
Proof.
  unfold emit. generalize (membersExcluding reg to sender). intros l.
  induction l as [| c l IH]; [reflexivity |].
  rewrite !fmap_cons. simpl. by f_equal.
Qed.

Lemma emit_verbatim (reg : registry) (sender : sid) (ev : string)
    (d : payload) (to : value) (include_self : bool) :
  Forall (fun x => event x = ev /\ data x = d)
         (emit reg sender ev d to include_self).
Proof.
  unfold emit. apply Forall_fmap, Forall_forall. by intros c _.
Qed.

(** The fan-out list has one entry per member other than the sender. *)
Lemma membersExcluding_length (reg : registry) (room : value) (conn : sid) :
  length (membersExcluding reg room conn)
  = if decide (conn ∈ members reg room) then size (members reg room) - 1
    else size (members reg room).
Proof.
  unfold membersExcluding.
  change (length (elements (members reg room ∖ {[conn]})))
    with (size (members reg room ∖ {[conn]})).
  destruct (decide (conn ∈ members reg room)) as [Hin | Hout].
  - rewrite size_difference by (by apply singleton_subseteq_l).
    by rewrite size_singleton.
  - f_equal. apply difference_disjoint_L. by apply disjoint_singleton_r.
Qed.

End Registry.
End RelayFacts.

(** ** Claims on the relay *)

Module Relay.
Import Signaling RelayFacts.

Section General.
Context {value : Type} `{Countable value} (none : value).

Local Abbreviation payload := (gmap string value).
Local Abbreviation registry := (gmap value (gset sid)).

(** C4, amended.  A relayed event ([offer], [answer], [ice-candidate], and
    [user-joined] on a join) goes to exactly the members of the addressed
    room other than the sender, each once, and never to the sender.  With
    [N] members in the room when the event is emitted that is [N - 1]
    deliveries when the sender is one of them, as it always is on a join,
    and [N] when it is not: the handlers do not ask for membership. *)
Theorem relay_fan_out (k : relayed) (sender : sid) (d : payload)
    (reg : registry) :
  let room := get none "room" d in
  let reg' := (relay none k sender d reg).1 in
  let out := (relay none k sender d reg).2 in
  let N := size (members reg' room) in
  recipient <$> out = elements (members reg' room ∖ {[sender]})
  /\ (sender ∉ recipient <$> out)
  /\ NoDup (recipient <$> out)
  /\ (sender ∈ members reg' room -> length out = N - 1)
  /\ (sender ∉ members reg' room -> length out = N)
  /\ (k = Join -> sender ∈ members reg' room).
Proof.
  intros room reg' out N.
  assert (recipient <$> out = membersExcluding reg' room sender) as Hrec.
  { subst out reg' room. destruct k; apply emit_recipients. }
  assert (length out = length (membersExcluding reg' room sender)) as Hlen.
  { by rewrite <- Hrec, length_fmap. }
  rewrite membersExcluding_length in Hlen.
  split; [exact Hrec |]. rewrite Hrec. unfold membersExcluding.
  split; [| split; [| split; [| split]]].
  - rewrite elem_of_elements, elem_of_difference, elem_of_singleton. tauto.
  - apply NoDup_elements.
  - intros Hin. by rewrite decide_True in Hlen.
  - intros Hout. by rewrite decide_False in Hlen.
  - intros ->. subst reg' room. simpl. rewrite members_join.
    rewrite decide_True by reflexivity.
    apply elem_of_union_l, elem_of_singleton. reflexivity.
Qed.


(** C7.  After [disconnect] the connection is a member of no room at all,
    so of none of those it had joined. *)
Theorem disconnect_leaves_every_room (conn : sid) (reg : registry)
    (room : value) :
  conn ∉ members (disconnect conn reg) room.
Proof.
  unfold disconnect. rewrite members_leave_all.
  destruct (decide (room ∈ rooms_of conn reg)) as [Hin | Hout].
  - rewrite elem_of_difference, elem_of_singleton. tauto.
  - intros Hmem. by apply Hout, rooms_of_member.
Qed.

(** The other connections stay where they were. *)
Lemma disconnect_keeps_others (conn other : sid) (reg : registry)
    (room : value) :
  other <> conn ->
  other ∈ members (disconnect conn reg) room <-> other ∈ members reg room.
Proof.
  intros Hne. unfold disconnect. rewrite members_leave_all.
  destruct (decide (room ∈ rooms_of conn reg)); [| reflexivity].
  rewrite elem_of_difference, elem_of_singleton. tauto.
Qed.

(** A connection that joined two rooms and then dropped is in neither. *)
Lemma disconnect_after_two_joins (conn : sid) (a b : value) (reg : registry) :
  let reg' := disconnect conn (join_room conn b (join_room conn a reg)) in
  (conn ∉ members reg' a) /\ (conn ∉ members reg' b).
Proof.
  split; rewrite members_disconnect, elem_of_difference, elem_of_singleton;
    tauto.
Qed.

(** A join followed by a leave gives every room its members back. *)
Lemma join_then_leave (conn : sid) (room room' : value) (reg : registry) :
  conn ∉ members reg room ->
  members (leave_room conn room (join_room conn room reg)) room'
  = members reg room'.
Proof.
  intros Hnew. rewrite members_leave, members_join.
  destruct (decide (room = room')) as [<- |].
  - rewrite decide_True by reflexivity.
    apply set_eq. intros c.
    rewrite elem_of_difference, elem_of_union, elem_of_singleton.
    split; [tauto |]. intros Hc. split; [tauto |]. congruence.
  - by rewrite members_join, decide_False.
Qed.

End General.

Import Scenario.

(** C4 as stated fails: the lobby has two members, [a] and [b]; an offer
    sent into it by [c], who never joined, is delivered twice, not once. *)
Lemma offer_from_outside_reaches_all :
  size (members lobby (room "lobby")) = 2
  /\ length (relay None Offer "c" {[ "room" := room "lobby" ]} lobby).2 = 2
  /\ length (relay None Offer "c" {[ "room" := room "lobby" ]} lobby).2
     <> 2 - 1.
Proof. repeat split; vm_compute; congruence. Qed.

End Relay.

(** ** Further facts on the store *)

Module Loading.
Import PyStr Faces StoreFacts LoginFacts.

Section General.
Context `{V : Vision}.

(** X1.  [load_faces] returns as many names as encodings, and the name at
    an index is the name of the encoding at that index: both come from one
    file of the directory, the encoding as the first face found in it and
    the name as the root of its file name. *)
Theorem load_faces_paired (dir : directory) :
  length (load_faces dir).1.1 = length (load_faces dir).1.2
  /\ forall i e n,
       (load_faces dir).1.1 !! i = Some e ->
       (load_faces dir).1.2 !! i = Some n ->
       exists filename content img rest,
         (filename, content) ∈ dir
         /\ is_image_name filename = true
         /\ load_image_file content = Return img
         /\ face_encodings img = e :: rest
         /\ n = splitext_root filename.
Proof.
  split; [apply load_faces_lengths |].
  induction dir as [| [f c] dir IH]; intros i e n He Hn.
  - unfold load_faces in He; simpl in He. by rewrite lookup_nil in He.
  - assert (forall filename content img rest,
              (filename, content) ∈ dir ->
              is_image_name filename = true ->
              load_image_file content = Return img ->
              face_encodings img = e :: rest ->
              n = splitext_root filename ->
              exists filename content img rest,
                (filename, content) ∈ (f, c) :: dir
                /\ is_image_name filename = true
                /\ load_image_file content = Return img
                /\ face_encodings img = e :: rest
                /\ n = splitext_root filename) as Hlater.
    { intros filename content img rest Hin ? ? ? ?.
      exists filename, content, img, rest.
      split; [by apply list_elem_of_further | done]. }
    rewrite load_faces_cons in He, Hn. unfold cat3 in He, Hn.
    cbn [fst snd] in He, Hn. unfold load_faces at 1 in He.
    unfold load_faces at 1 in Hn. simpl in He, Hn.
    destruct (is_image_name f) eqn:Hf;
      [| simpl in He, Hn;
         destruct (IH i e n He Hn) as (? & ? & ? & ? & ? & ? & ? & ? & ?);
         by eapply Hlater].
    destruct (load_image_file c) as [img | exn] eqn:Himg;
      [| simpl in He, Hn;
         destruct (IH i e n He Hn) as (? & ? & ? & ? & ? & ? & ? & ? & ?);
         by eapply Hlater].
    destruct (face_encodings img) as [| enc0 rest] eqn:Henc;
      [simpl in He, Hn;
       destruct (IH i e n He Hn) as (? & ? & ? & ? & ? & ? & ? & ? & ?);
       by eapply Hlater |].
    simpl in He, Hn. destruct i as [| i].
    + simpl in He, Hn. injection He as <-. injection Hn as <-.
      exists f, c, img, rest. split; [apply list_elem_of_here | done].
    + simpl in He, Hn.
      destruct (IH i e n He Hn) as (? & ? & ? & ? & ? & ? & ? & ? & ?).
      by eapply Hlater.
Qed.

(** X2.  The load of a listing cut in two is the load of the first part followed
    by the load of the second: whatever a file holds, the files after it are
    loaded. *)
Theorem load_faces_continues (d1 d2 : directory) :
  load_faces (d1 ++ d2) = cat3 (load_faces d1) (load_faces d2).
Proof. apply load_faces_app. Qed.

End General.

Import Scenario.

#[local] Existing Instance toy.

(** The administrator deletes bob: [bob.jpg] goes, alice stays. *)
Lemma admin_delete_jpg_witness :
  let filename := "bob" +:+ ".jpg" in
  let st' := (admin_delete (started two_faces (Some "admin")) "bob").2 in
  (admin_delete (started two_faces (Some "admin")) "bob").1 = RedirectAdmin
  /\ faces_dir st' = remove_file filename two_faces
  /\ (filename ∉ (faces_dir st').*1)
  /\ (filename ∉ two_faces.*1 -> faces_dir st' = two_faces)
  /\ KNOWN_FACES st' = (load_faces (faces_dir st')).1.1
  /\ KNOWN_NAMES st' = (load_faces (faces_dir st')).1.2.
Proof.
  exact (Store.admin_delete_jpg (started two_faces (Some "admin")) "bob"
           eq_refl).
Defined.

(** The face 9 is unknown to alice and bob and the write returns. *)
Lemma login_write_returned_witness :
  login (started two_faces None) noon (Some "9")
  = Return (mkResponse "new_face" (Some (enroll_filename noon)),
            reload (started two_faces None) (two_faces ++ [noon_file])).
Proof.
  apply (Matcher.login_write_returned (started two_faces None) noon
           (Some "9") (file "9") 9%Z [] (two_faces ++ [noon_file]));
    try reflexivity.
  intros k Hk. vm_compute in Hk.
  repeat (apply elem_of_cons in Hk as [-> | Hk]; [reflexivity |]).
  by apply elem_of_nil in Hk.
Defined.

Lemma enrolled_identity_witness :
  splitext_root (enroll_filename noon) = "user_" +:+ noon
  /\ splitext_root (enroll_filename noon) <> enroll_filename noon.
Proof. exact (Store.enrolled_identity noon eq_refl). Defined.

Lemma login_paired_witness :
  paired (signed_in (started two_faces None) "alice").
Proof.
  apply (Matcher.login_paired (started two_faces None) noon (Some "3")
           (mkResponse "success" (Some "alice"))
           (signed_in (started two_faces None) "alice"));
    reflexivity.
Defined.

End Loading.

(** ** More on the strings *)

Module StrMore.
Import PyStr StrFacts.

Lemma after_comma_app_found (prefix rest : string) :
  after_comma prefix = None ->
  after_comma (prefix +:+ "," +:+ rest) = Some rest.
Proof.
  intros Hnone. induction prefix as [| c p IH]; [reflexivity |].
  rewrite append_cons. simpl in *.
  destruct (Ascii.eqb c ","); [discriminate | by apply IH].
Qed.

Lemma app_comma_nonempty (prefix rest : string) :
  String.eqb (prefix +:+ "," +:+ rest) "" = false.
Proof. by destruct prefix. Qed.

Lemma eqb_empty_false (s : string) : s <> "" -> String.eqb s "" = false.
Proof. by destruct s. Qed.

Lemma substring_all (p : string) : substring 0 (String.length p) p = p.
Proof. induction p as [| c p IH]; [reflexivity | simpl; by rewrite IH]. Qed.

(** The root [splitext] yields is a prefix of the path. *)
Lemma splitext_root_prefix (p : string) :
  exists n, splitext_root p = substring 0 n p.
Proof.
  unfold splitext_root. destruct (rfind "." p) as [d |].
  - destruct (_ && _); [by exists d |].
    exists (String.length p). by rewrite substring_all.
  - exists (String.length p). by rewrite substring_all.
Qed.

(** The root of a path that is not empty is not empty. *)
Lemma splitext_root_nonempty (p : string) :
  p <> "" -> splitext_root p <> "".
Proof.
  intros Hp. unfold splitext_root. destruct (rfind "." p) as [d |]; [| exact Hp].
  destruct (rfind "/" p) as [sep |].
  - destruct ((S sep <=? d)%nat) eqn:Hle; simpl; [| exact Hp].
    destruct (has_other _ _); [| exact Hp].
    apply Nat.leb_le in Hle. destruct d as [| d]; [lia |].
    by destruct p.
  - simpl. rewrite Nat.sub_0_r.
    destruct (has_other "." (substring 0 d p)) eqn:Hother; [| exact Hp].
    destruct d as [| d]; [by destruct p | by destruct p].
Qed.

(** A root never changes the first character of the path. *)
Lemma splitext_root_head (c : ascii) (r : string) :
  splitext_root (String c r) = ""
  \/ exists r', splitext_root (String c r) = String c r'.
Proof.
  destruct (splitext_root_prefix (String c r)) as [[| n] ->]; simpl; eauto.
Qed.

End StrMore.

(** ** More on [POST /login] *)

Module LoginMore.
Import PyStr Faces StoreFacts LoginFacts Pages.

Section Login.
Context `{V : Vision}.

Lemma index_true_Some_inv (faces : list encoding) (unknown : encoding) (i : nat) :
  index_true (map (fun k => within_tolerance k unknown) faces) = Some i ->
  exists e, faces !! i = Some e
    /\ within_tolerance e unknown = true
    /\ forall j e', faces !! j = Some e' -> j < i ->
                    within_tolerance e' unknown = false.
Proof.
  unfold index_true. intros Hidx.
  destruct (list_find _ _) as [[i' b] |] eqn:Hfind; [| discriminate].
  simpl in Hidx. injection Hidx as ->.
  apply list_find_Some in Hfind as (Hlook & Hb & Hbefore).
  change (((fun k => within_tolerance k unknown) <$> faces) !! i = Some b)
    in Hlook.
  rewrite list_lookup_fmap in Hlook.
  destruct (faces !! i) as [e |] eqn:He; [| discriminate].
  simpl in Hlook. injection Hlook as Hlook. exists e.
  split; [reflexivity |]. split; [congruence |].
  intros j e' Hj Hlt. apply not_true_is_false.
  apply (Hbefore j (within_tolerance e' unknown)); [| exact Hlt].
  change (((fun k => within_tolerance k unknown) <$> faces) !! j
          = Some (within_tolerance e' unknown)).
  by rewrite list_lookup_fmap, Hj.
Qed.

Lemma index_true_None_inv (faces : list encoding) (unknown : encoding) :
  index_true (map (fun k => within_tolerance k unknown) faces) = None ->
  forall e, e ∈ faces -> within_tolerance e unknown = false.
Proof.
  unfold index_true. intros Hidx e He.
  destruct (list_find _ _) as [[i' b] |] eqn:Hfind; [discriminate |].
  apply list_find_None in Hfind. rewrite Forall_forall in Hfind.
  apply not_true_is_false, Hfind.
  change (within_tolerance e unknown
          ∈ (fun k => within_tolerance k unknown) <$> faces).
  apply list_elem_of_fmap. by exists e.
Qed.

Lemma login_inv st ts img r st' :
  login st ts img = Return (r, st') -> login_case st ts img r st'.
Proof.
  unfold login.
  destruct (read_frame img) as [[frame |] | exn] eqn:Hframe;
    [| intros [= <- <-]; by apply NoFrame | discriminate].
  destruct (face_encodings frame) as [| unknown rest] eqn:Hencs;
    [intros [= <- <-]; by eapply NoFace |].
  cbv zeta. rewrite matches_map.
  destruct (index_true _) as [i |] eqn:Hidx.
  - apply index_true_Some_inv in Hidx as (e & He & Hin & Hbefore).
    destruct (KNOWN_NAMES st !! i) as [n |] eqn:Hn; [| discriminate].
    intros [= <- <-]. by eapply Known.
  - pose proof (index_true_None_inv _ _ Hidx) as Hnone.
    destruct (imwrite _ frame (faces_dir st)) as [e | dir'] eqn:Hw;
      intros [= <- <-]; [by eapply NotSaved | by eapply Enrolled].
Qed.


End Login.
End LoginMore.

(** ** What a login answer tells *)

Module Sessions.
Import PyStr Faces StoreFacts LoginFacts Pages LoginMore.

Section General.
Context `{V : Vision}.

(** X7.  A [success] answer is never given without cause: a face was
    detected in the image, the name answered is the one stored at some
    index, the encoding stored at that index is within tolerance of the
    face, no encoding stored before it is, and only the session changed. *)
Theorem login_success_sound st ts img r st' :
  login st ts img = Return (r, st') ->
  status r = "success" ->
  exists frame unknown rest i e n,
    read_frame img = Return (Some frame)
    /\ face_encodings frame = unknown :: rest
    /\ KNOWN_FACES st !! i = Some e
    /\ KNOWN_NAMES st !! i = Some n
    /\ within_tolerance e unknown = true
    /\ (forall j e', KNOWN_FACES st !! j = Some e' -> j < i ->
                     within_tolerance e' unknown = false)
    /\ name r = Some n
    /\ st' = signed_in st n.
Proof.
  intros Hlogin Hstatus.
  destruct (login_inv _ _ _ _ _ Hlogin)
    as [? -> ? | ? ? ? -> ? | frame unknown rest i e n ? ? ? ? ? ? -> ->
        | ? ? ? ? ? ? ? ? -> ? | ? ? ? ? ? ? ? ? -> ?];
    try discriminate Hstatus.
  exists frame, unknown, rest, i, e, n. by repeat split.
Qed.

(** X8.  A [new_face] answer is given only when a face was detected and no
    stored encoding is within tolerance of it; the name answered is the
    file name [user_<ts>.jpg], the store is reloaded from the directory the
    write left, and the caller is not signed in by it. *)
Theorem login_new_face_unknown st ts img r st' :
  login st ts img = Return (r, st') ->
  status r = "new_face" ->
  exists frame unknown rest dir',
    read_frame img = Return (Some frame)
    /\ face_encodings frame = unknown :: rest
    /\ (forall k, k ∈ KNOWN_FACES st -> within_tolerance k unknown = false)
    /\ imwrite (path_join FACES_DIR (enroll_filename ts)) frame (faces_dir st)
       = WriteReturned dir'
    /\ name r = Some (enroll_filename ts)
    /\ st' = reload st dir'
    /\ session_user st' = session_user st.
Proof.
  intros Hlogin Hstatus.
  destruct (login_inv _ _ _ _ _ Hlogin)
    as [? -> ? | ? ? ? -> ? | ? ? ? ? ? ? ? ? ? ? ? ? -> ?
        | ? ? ? ? ? ? ? ? -> ? | frame unknown rest dir' ? ? ? ? -> ->];
    try discriminate Hstatus.
  exists frame, unknown, rest, dir'.
  destruct (reload_store st dir') as (_ & _ & _ & Hs). by repeat split.
Qed.

(** X9.  [login] makes a caller the administrator only through a record
    named [admin]: if the session holds [admin] after the call, it did
    before or [admin] is one of the stored names. *)
Theorem login_admin_only_by_record st ts img r st' :
  login st ts img = Return (r, st') ->
  session_user st' = Some "admin" ->
  session_user st = Some "admin" \/ "admin" ∈ KNOWN_NAMES st.
Proof.
  intros Hlogin Hadmin.
  destruct (login_inv _ _ _ _ _ Hlogin)
    as [? ? -> | ? ? ? ? -> | ? ? ? i ? n ? ? ? Hn ? ? ? ->
        | ? ? ? ? ? ? ? ? ? -> | ? ? ? dir' ? ? ? ? ? ->].
  - by left.
  - by left.
  - right. simpl in Hadmin. injection Hadmin as ->.
    by eapply list_elem_of_lookup_2.
  - by left.
  - left. destruct (reload_store st dir') as (_ & _ & _ & Hs). congruence.
Qed.

(** X10.  The name under which an enrolled image is stored is never
    [admin], whatever the clock says. *)
Theorem enrolled_never_admin (ts : string) :
  splitext_root (enroll_filename ts) <> "admin".
Proof.
  unfold enroll_filename.
  change ("user_" +:+ ts +:+ ".jpg")
    with (String "u" ("ser_" +:+ ts +:+ ".jpg")).
  destruct (StrMore.splitext_root_head "u" ("ser_" +:+ ts +:+ ".jpg"))
    as [-> | [r' ->]]; discriminate.
Qed.

(** X11.  A data URL and its bare base64 part are one request: what comes
    before the first comma plays no part in the answer. *)
Theorem login_data_url_prefix st ts (prefix b64 : string) :
  after_comma prefix = None ->
  after_comma b64 = None ->
  b64 <> "" ->
  login st ts (Some (prefix +:+ "," +:+ b64)) = login st ts (Some b64).
Proof.
  intros Hprefix Hb64 Hne. unfold login, read_frame, after_first_comma.
  rewrite StrMore.app_comma_nonempty, (StrMore.eqb_empty_false b64 Hne).
  by rewrite (StrMore.after_comma_app_found prefix b64 Hprefix), Hb64.
Qed.

End General.
End Sessions.

(** ** The pages and the store *)

Module PagesFacts.
Import PyStr Faces StoreFacts LoginFacts Pages LoginMore.

Section General.
Context `{V : Vision}.
Variable added_at : string -> string.

Local Abbreviation image_named :=
  (filter (fun f : string => is_image_name f = true)).

(** The names [load_faces] stores are roots of image-named files, in
    listing order. *)
Lemma load_names_sublist (dir : directory) :
  sublist (load_faces dir).1.2 (splitext_root <$> image_named dir.*1).
Proof.
  induction dir as [| [f c] dir IH]; [constructor |].
  rewrite load_faces_cons. unfold cat3. cbn [fst snd fmap list_fmap].
  destruct (is_image_name f) eqn:Hf.
  - rewrite filter_cons_True by exact Hf. rewrite fmap_cons.
    unfold load_faces at 1; simpl. rewrite Hf.
    destruct (load_image_file c) as [img | e]; simpl;
      [| by apply sublist_cons].
    destruct (face_encodings img); simpl;
      [by apply sublist_cons | by apply sublist_skip].
  - rewrite filter_cons_False by congruence.
    unfold load_faces at 1; simpl. by rewrite Hf.
Qed.

Lemma load_names_nonempty (dir : directory) (n : string) :
  (forall f, f ∈ dir.*1 -> f <> "") ->
  n ∈ (load_faces dir).1.2 -> n <> "".
Proof.
  intros Hfiles Hn.
  apply (fun H => elem_of_sublist _ _ _ H (load_names_sublist dir)) in Hn.
  apply list_elem_of_fmap in Hn as (f & -> & Hf).
  apply list_elem_of_filter in Hf as [_ Hf].
  by apply StrMore.splitext_root_nonempty, Hfiles.
Qed.

Lemma admin_rows (fs : list string) (acc : list (string * string)) :
  fold_left (admin_step added_at) fs acc
  = acc ++ ((fun f => (splitext_root f, added_at (path_join FACES_DIR f)))
            <$> image_named fs).
Proof.
  revert acc. induction fs as [| f fs IH]; intros acc.
  - by rewrite app_nil_r.
  - cbn [fold_left]. rewrite IH. unfold admin_step.
    destruct (is_image_name f) eqn:Hf.
    + rewrite filter_cons_True by exact Hf.
      by rewrite fmap_cons, <- (assoc_L (++)).
    + by rewrite filter_cons_False by congruence.
Qed.



End General.
End PagesFacts.

(** ** What the routes do *)

Module Routes.
Import PyStr Faces Signaling StoreFacts LoginFacts Pages LoginMore PagesFacts.

Section General.
Context `{V : Vision}.

Local Abbreviation image_named :=
  (filter (fun f : string => is_image_name f = true)).

(** X12.  The names in the store are roots of files with an image name, in
    the order of the listing and at most one per such file; a file with
    another name never gives a record. *)
Theorem stored_names_of_image_files (dir : directory) :
  sublist (load_faces dir).1.2 (splitext_root <$> image_named dir.*1)
  /\ length (load_faces dir).1.1 <= length (image_named dir.*1).
Proof.
  pose proof (load_names_sublist dir) as Hsub. split; [exact Hsub |].
  apply sublist_length in Hsub.
  by rewrite length_fmap, <- load_faces_lengths in Hsub.
Qed.


(** X14.  When the store is the load of a directory without an empty file
    name, a [success] answer opens the call page: [call_room] then renders
    [call.html] for the name answered, in the room asked for or in [lobby]
    when none is.  After any other answer [call_room] does what it did
    before the call. *)
Theorem login_then_call_room st ts img r st' (args : gmap string string) :
  (forall f, f ∈ (faces_dir st).*1 -> f <> "") ->
  synced st ->
  login st ts img = Return (r, st') ->
  (status r = "success" ->
     exists n, name r = Some n
       /\ call_room st' args = CallHtml n (default "lobby" (args !! "room")))
  /\ (status r <> "success" -> call_room st' args = call_room st args).
Proof.
  intros Hfiles [_ Hnames] Hlogin.
  destruct (login_inv _ _ _ _ _ Hlogin)
    as [? -> -> | ? ? ? -> -> | ? ? ? i ? n ? ? ? Hn ? ? -> ->
        | ? ? ? ? ? ? ? ? -> -> | ? ? ? dir' ? ? ? ? -> ->];
    (split; [intros Hs; try discriminate Hs | intros Hs; try reflexivity]).
  - exists n. split; [reflexivity |]. unfold call_room; simpl.
    assert (n <> "") as Hne.
    { apply (load_names_nonempty (faces_dir st)); [exact Hfiles |].
      rewrite <- Hnames. by eapply list_elem_of_lookup_2. }
    by rewrite (StrMore.eqb_empty_false n Hne).
  - by destruct Hs.
  - unfold call_room.
    destruct (reload_store st dir') as (_ & _ & _ & ->). reflexivity.
Qed.

(** X16.  For the administrator, [logout_all] sends [force-logout], with an
    empty object, once to every connection, and a broadcast sends its
    message once to every connection, as it was typed; a broadcast without
    a [message] field ends in Flask's 400 answer and sends nothing. *)
Theorem admin_events_reach_all st (form : gmap string string)
    (connected : gset sid) :
  session_user st = Some "admin" ->
  ((logout_all st connected).1 = Redirect "admin"
   /\ recipient <$> (logout_all st connected).2 = elements connected
   /\ Forall (fun x => event x = "force-logout" /\ data x = ∅)
             (logout_all st connected).2)
  /\ (forall message, form !! "message" = Some message ->
        exists out,
          admin_broadcast st form connected = Return (Redirect "admin", out)
          /\ recipient <$> out = elements connected
          /\ Forall (fun x => event x = "broadcast"
                              /\ data x = {[ "message" := message ]}) out)
  /\ (form !! "message" = None ->
        exists e, admin_broadcast st form connected = Raise e).
Proof.
  intros Hadmin. unfold logout_all, admin_broadcast.
  rewrite !bool_decide_eq_true_2 by exact Hadmin. cbn [fst snd].
  assert (forall ev d,
            recipient <$> socketio_emit connected ev d = elements connected)
    as Hrec.
  { intros ev d. unfold socketio_emit.
    induction (elements connected) as [| c l IH]; [reflexivity |].
    rewrite !fmap_cons. simpl. by f_equal. }
  assert (forall ev d,
            Forall (fun x => event x = ev /\ data x = d)
                   (socketio_emit connected ev d)) as Hall.
  { intros ev d. unfold socketio_emit.
    apply Forall_fmap, Forall_forall. by intros c _. }
  repeat split; try apply Hrec; try apply Hall.
  - intros message ->. eexists. split; [reflexivity |].
    split; [apply Hrec | apply Hall].
  - intros ->. by eexists.
Qed.

(** X18.  When the administrator deletes [username] and [<username>.jpg]
    is a file of the directory, that file alone goes, and the store after
    the call is the load of the files before it followed by the load of
    the files after it: the records of every other file stay, in order. *)
Theorem admin_delete_keeps_others st username pre content post :
  session_user st = Some "admin" ->
  faces_dir st = pre ++ (username +:+ ".jpg", content) :: post ->
  username +:+ ".jpg" ∉ pre.*1 ->
  username +:+ ".jpg" ∉ post.*1 ->
  let st' := (admin_delete st username).2 in
  faces_dir st' = pre ++ post
  /\ KNOWN_FACES st' = (load_faces pre).1.1 ++ (load_faces post).1.1
  /\ KNOWN_NAMES st' = (load_faces pre).1.2 ++ (load_faces post).1.2.
Proof.
  intros Hadmin Hdir Hpre Hpost st'. subst st'. unfold admin_delete.
  rewrite bool_decide_eq_true_2 by exact Hadmin. cbn [snd].
  assert (file_exists (username +:+ ".jpg") (faces_dir st) = true) as ->.
  { unfold file_exists. apply bool_decide_eq_true_2.
    rewrite Hdir, fmap_app, fmap_cons. apply elem_of_app. right.
    apply list_elem_of_here. }
  assert (remove_file (username +:+ ".jpg") (faces_dir st) = pre ++ post)
    as ->.
  { rewrite Hdir. unfold remove_file. rewrite filter_app, filter_cons_False
      by (simpl; tauto).
    fold (remove_file (username +:+ ".jpg") pre).
    fold (remove_file (username +:+ ".jpg") post).
    by rewrite !Store.remove_file_absent. }
  destruct (reload_store st (pre ++ post)) as (-> & -> & -> & _).
  by rewrite load_faces_app.
Qed.

(** X23.  Of a file in which several faces are found only the first is
    stored, under the root of the file name; the files around it are
    loaded as without it. *)
Theorem load_faces_first_face_only pre filename content post img enc rest :
  is_image_name filename = true ->
  load_image_file content = Return img ->
  face_encodings img = enc :: rest ->
  load_faces (pre ++ (filename, content) :: post)
  = cat3 (load_faces pre)
      (cat3 ([enc], [splitext_root filename], []) (load_faces post)).
Proof.
  intros Hname Himg Henc. rewrite load_faces_app, load_faces_cons.
  do 2 f_equal. unfold load_faces; simpl. by rewrite Hname, Himg, Henc.
Qed.

Section Listing.
(** The creation times the listing shows. *)
Variable added_at : string -> string.

(** X15.  Without the session of [admin] the four administrator routes
    answer [Access denied] and do nothing: no row is shown, no event is
    sent, no file is removed, the store is not reloaded, and the form of a
    broadcast is not even read. *)
Theorem admin_routes_denied st username (form : gmap string string)
    (connected : gset sid) :
  session_user st <> Some "admin" ->
  admin added_at st = denied
  /\ logout_all st connected = (denied, [])
  /\ admin_broadcast st form connected = Return (denied, [])
  /\ admin_delete st username = (AccessDenied, st).
Proof.
  intros Hno. unfold admin, logout_all, admin_broadcast, admin_delete.
  rewrite !bool_decide_eq_false_2 by exact Hno. repeat split.
  destruct (session_user st) as [user |]; [| reflexivity].
  destruct (String.eqb user "") eqn:Hempty; [reflexivity |].
  destruct (String.eqb user "admin") eqn:Hadmin; [| reflexivity].
  apply String.eqb_eq in Hadmin. congruence.
Qed.

(** X17.  For the administrator the page lists one row per file with an
    image name, in listing order, named by the root of the file name; when
    the store is the load of the directory, every stored name is among the
    rows, in the same order. *)
Theorem admin_lists_image_files st :
  session_user st = Some "admin" ->
  exists users,
    admin added_at st = AdminHtml "admin" users
    /\ users.*1 = splitext_root <$> image_named (faces_dir st).*1
    /\ (synced st -> sublist (KNOWN_NAMES st) users.*1).
Proof.
  intros Hadmin. unfold admin. rewrite Hadmin. simpl.
  eexists. split; [reflexivity |]. rewrite admin_rows. simpl.
  assert (((fun f => (splitext_root f, added_at (path_join FACES_DIR f)))
           <$> image_named (faces_dir st).*1).*1
          = splitext_root <$> image_named (faces_dir st).*1) as ->.
  { rewrite <- list_fmap_compose. reflexivity. }
  split; [reflexivity |]. intros [_ ->]. apply load_names_sublist.
Qed.

End Listing.

End General.
End Routes.

(** ** Joining and leaving *)

Module Rooms.
Import Signaling RelayFacts.

Section General.
Context {value : Type} `{Countable value} (none : value).

Local Abbreviation payload := (gmap string value).
Local Abbreviation registry := (gmap value (gset sid)).

(** X19.  [on_leave] takes the sender out of the room named in the event
    and touches no other room and no other member; [user-left], carrying
    the [name] of the event and nothing else, goes once to every member
    that remains, so never to the sender. *)
Theorem on_leave_effect (sender : sid) (d : payload) (reg : registry) :
  let room := get none "room" d in
  let reg' := (on_leave none sender d reg).1 in
  let out := (on_leave none sender d reg).2 in
  (forall room',
      members reg' room'
      = if decide (room = room') then members reg room ∖ {[sender]}
        else members reg room')
  /\ recipient <$> out = elements (members reg room ∖ {[sender]})
  /\ (sender ∉ recipient <$> out)
  /\ Forall (fun x => event x = "user-left"
                      /\ data x = {[ "name" := get none "name" d ]}) out.
Proof.
  intros room reg' out. subst reg' out. cbn [on_leave fst snd]. fold room.
  assert (recipient <$> emit (leave_room sender room reg) sender "user-left"
            {[ "name" := get none "name" d ]} room true
          = elements (members reg room ∖ {[sender]})) as Hrec.
  { unfold emit. rewrite members_leave, decide_True by reflexivity.
    induction (elements (members reg room ∖ {[sender]})) as [| c l IH];
      [reflexivity |].
    rewrite !fmap_cons. simpl. by f_equal. }
  split; [intros room'; apply members_leave |].
  split; [exact Hrec |]. rewrite Hrec.
  split; [| apply emit_verbatim].
  rewrite elem_of_elements, elem_of_difference, elem_of_singleton. tauto.
Qed.

(** X20.  A connection that joins a room it was not in and then leaves it
    gives every room the members it had. *)
Theorem join_leave_round_trip (sender : sid) (d : payload) (reg : registry)
    (room' : value) :
  sender ∉ members reg (get none "room" d) ->
  members (on_leave none sender d (on_join none sender d reg).1).1 room'
  = members reg room'.
Proof. intros Hnew. by apply Relay.join_then_leave. Qed.

(** X21.  Joining twice is joining once, and leaving twice is leaving once:
    the second call changes the members of no room. *)
Theorem join_leave_idempotent (sender : sid) (d : payload) (reg : registry)
    (room' : value) :
  members (on_join none sender d (on_join none sender d reg).1).1 room'
  = members (on_join none sender d reg).1 room'
  /\ members (on_leave none sender d (on_leave none sender d reg).1).1 room'
     = members (on_leave none sender d reg).1 room'.
Proof.
  cbn [on_join on_leave fst]. split.
  - rewrite !members_join. destruct (decide (get none "room" d = room'));
      [| reflexivity].
    rewrite decide_True by reflexivity.
    apply set_eq. intros c. rewrite !elem_of_union. tauto.
  - rewrite !members_leave. destruct (decide (get none "room" d = room'));
      [| reflexivity].
    rewrite decide_True by reflexivity.
    apply set_eq. intros c. rewrite !elem_of_difference. tauto.
Qed.

(** X22.  [user-joined] carries the [name] of the join event and nothing
    else of it, [None] when the event has no name; two join events with the
    same room and name do the same, whatever else they hold. *)
Theorem on_join_announces_name (sender : sid) (d : payload) (reg : registry) :
  Forall (fun x => event x = "user-joined"
                   /\ data x = {[ "name" := get none "name" d ]})
         (on_join none sender d reg).2
  /\ (d !! "name" = None ->
      Forall (fun x => data x = {[ "name" := none ]})
             (on_join none sender d reg).2)
  /\ (forall d' : payload,
        get none "room" d' = get none "room" d ->
        get none "name" d' = get none "name" d ->
        on_join none sender d' reg = on_join none sender d reg).
Proof.
  split; [apply emit_verbatim |]. split.
  - intros Hname. cbn [on_join snd]. unfold get at 2. rewrite Hname.
    eapply Forall_impl; [apply emit_verbatim |]. by intros x [_ ->].
  - intros d' Hroom Hname. unfold on_join. by rewrite Hroom, Hname.
Qed.

End General.
End Rooms.

(** ** The further facts at work in the small world *)

Module MoreCases.
Import PyStr Faces Signaling StoreFacts LoginFacts Pages Scenario.

#[local] Existing Instance toy.

Ltac not_listed H :=
  vm_compute in H;
  repeat (apply elem_of_cons in H as [H | H]; [discriminate H |]);
  by apply elem_of_nil in H.

(** The face 3 is answered as alice, whose encoding 1 is stored first. *)
Lemma login_success_sound_witness :
  exists frame unknown rest i e n,
    read_frame (Some "3") = Return (Some frame)
    /\ face_encodings frame = unknown :: rest
    /\ KNOWN_FACES (started two_faces None) !! i = Some e
    /\ KNOWN_NAMES (started two_faces None) !! i = Some n
    /\ within_tolerance e unknown = true
    /\ (forall j e', KNOWN_FACES (started two_faces None) !! j = Some e' ->
                     j < i -> within_tolerance e' unknown = false)
    /\ name (mkResponse "success" (Some "alice")) = Some n
    /\ signed_in (started two_faces None) "alice"
       = signed_in (started two_faces None) n.
Proof.
  exact (Sessions.login_success_sound (started two_faces None) noon
           (Some "3") (mkResponse "success" (Some "alice"))
           (signed_in (started two_faces None) "alice") eq_refl eq_refl).
Defined.

(** The face 9 is new to alice and bob. *)
Lemma login_new_face_unknown_witness :
  exists frame unknown rest dir',
    read_frame (Some "9") = Return (Some frame)
    /\ face_encodings frame = unknown :: rest
    /\ (forall k, k ∈ KNOWN_FACES (started two_faces None) ->
                  within_tolerance k unknown = false)
    /\ imwrite (path_join FACES_DIR (enroll_filename noon)) frame
         (faces_dir (started two_faces None))
       = WriteReturned dir'
    /\ name (mkResponse "new_face" (Some "user_20240101_120000.jpg"))
       = Some (enroll_filename noon)
    /\ started (two_faces ++ [noon_file]) None
       = reload (started two_faces None) dir'
    /\ session_user (started (two_faces ++ [noon_file]) None)
       = session_user (started two_faces None).
Proof.
  exact (Sessions.login_new_face_unknown (started two_faces None) noon
           (Some "9") (mkResponse "new_face" (Some "user_20240101_120000.jpg"))
           (started (two_faces ++ [noon_file]) None) eq_refl eq_refl).
Defined.

(** The face 5 is the administrator's, whose record is named [admin]. *)
Lemma login_admin_only_by_record_witness :
  session_user (started with_admin None) = Some "admin"
  \/ "admin" ∈ KNOWN_NAMES (started with_admin None).
Proof.
  exact (Sessions.login_admin_only_by_record (started with_admin None) noon
           (Some "5") (mkResponse "success" (Some "admin"))
           (signed_in (started with_admin None) "admin") eq_refl eq_refl).
Defined.

Lemma login_data_url_prefix_witness :
  login (started two_faces None) noon
    (Some ("data:image/jpeg;base64" +:+ "," +:+ "3"))
  = login (started two_faces None) noon (Some "3").
Proof.
  apply (Sessions.login_data_url_prefix (started two_faces None) noon
           "data:image/jpeg;base64" "3"); [reflexivity | reflexivity |].
  discriminate.
Defined.


Lemma login_then_call_room_witness :
  (status (mkResponse "success" (Some "alice")) = "success" ->
     exists n, name (mkResponse "success" (Some "alice")) = Some n
       /\ call_room (signed_in (started two_faces None) "alice") ∅
          = CallHtml n (default "lobby" ((∅ : gmap string string) !! "room")))
  /\ (status (mkResponse "success" (Some "alice")) <> "success" ->
      call_room (signed_in (started two_faces None) "alice") ∅
      = call_room (started two_faces None) ∅).
Proof.
  apply (Routes.login_then_call_room (started two_faces None) noon
           (Some "3") (mkResponse "success" (Some "alice"))
           (signed_in (started two_faces None) "alice") ∅).
  - intros f Hf. intros ->. not_listed Hf.
  - by split.
  - reflexivity.
Defined.

Lemma admin_routes_denied_witness :
  admin toy_added_at (started two_faces (Some "alice")) = denied
  /\ logout_all (started two_faces (Some "alice")) {[ "a"; "b" ]}
     = (denied, [])
  /\ admin_broadcast (started two_faces (Some "alice"))
       {[ "message" := "hello" ]} {[ "a"; "b" ]}
     = Return (denied, [])
  /\ admin_delete (started two_faces (Some "alice")) "bob"
     = (AccessDenied, started two_faces (Some "alice")).
Proof.
  apply (Routes.admin_routes_denied toy_added_at
           (started two_faces (Some "alice")) "bob"
           {[ "message" := "hello" ]} {[ "a"; "b" ]}).
  discriminate.
Defined.

Lemma admin_events_reach_all_witness :
  recipient <$> (logout_all (started two_faces (Some "admin"))
                   {[ "a"; "b" ]}).2
  = elements ({[ "a"; "b" ]} : gset string).
Proof.
  exact (proj1 (proj2 (proj1
           (Routes.admin_events_reach_all (started two_faces (Some "admin"))
              {[ "message" := "hello" ]} {[ "a"; "b" ]} eq_refl)))).
Defined.

(** [notes.txt] is no image; [carol.PNG] is one, whatever the case. *)
Lemma admin_lists_image_files_witness :
  exists users,
    admin toy_added_at (started with_admin (Some "admin"))
    = AdminHtml "admin" users
    /\ users.*1
       = splitext_root
           <$> filter (fun f : string => is_image_name f = true)
                 (faces_dir (started with_admin (Some "admin"))).*1
    /\ (synced (started with_admin (Some "admin")) ->
        sublist (KNOWN_NAMES (started with_admin (Some "admin"))) users.*1).
Proof.
  exact (Routes.admin_lists_image_files toy_added_at
           (started with_admin (Some "admin")) eq_refl).
Defined.

Lemma admin_delete_keeps_others_witness :
  let st' := (admin_delete (started full_disk (Some "admin")) "bob").2 in
  faces_dir st' = [("alice.jpg", file "1")] ++ [("carol.jpg", file "2")]
  /\ KNOWN_FACES st'
     = (load_faces [("alice.jpg", file "1")]).1.1
       ++ (load_faces [("carol.jpg", file "2")]).1.1
  /\ KNOWN_NAMES st'
     = (load_faces [("alice.jpg", file "1")]).1.2
       ++ (load_faces [("carol.jpg", file "2")]).1.2.
Proof.
  apply (Routes.admin_delete_keeps_others (started full_disk (Some "admin"))
           "bob" [("alice.jpg", file "1")] (file "3")
           [("carol.jpg", file "2")]); try reflexivity.
  - intros Hin. not_listed Hin.
  - intros Hin. not_listed Hin.
Defined.

(** [c] joins the lobby of [a] and [b] and leaves it again. *)
Lemma join_leave_round_trip_witness :
  members (on_leave None "c" {[ "room" := room "lobby" ]}
             (on_join None "c" {[ "room" := room "lobby" ]} lobby).1).1
          (room "lobby")
  = members lobby (room "lobby").
Proof.
  apply (Rooms.join_leave_round_trip None "c" {[ "room" := room "lobby" ]}
           lobby (room "lobby")).
  intros Hin. vm_compute in Hin. discriminate Hin.
Defined.

(** The file [pair.jpg] shows the faces 4 and 8; the load keeps 4. *)
Lemma load_faces_first_face_only_witness :
  load_faces ([("alice.jpg", file "1")] ++ ("pair.jpg", file "48")
              :: [("bob.jpg", file "3")])
  = cat3 (load_faces [("alice.jpg", file "1")])
      (cat3 ([4%Z], [splitext_root "pair.jpg"], [])
            (load_faces [("bob.jpg", file "3")])).
Proof.
  apply (Routes.load_faces_first_face_only (V := toy)
           [("alice.jpg", file "1")]
           "pair.jpg" (file "48") [("bob.jpg", file "3")] (file "48")
           4%Z [8%Z]); reflexivity.
Defined.

End MoreCases.
